(** * QtDownload: the per-download state machine of platform/qt_download.cpp

    A shallow embedding of the [QtDownload] class: its constructor, the
    destructor, [StartRequest] and the three slots [OnHttpFinished],
    [OnHttpReadyRead] and [OnUpdateDataReadProgress], written as programs of
    a small state-and-failure monad over the object's members and the part
    of the world they touch (the disk, the requests handed to the network
    access manager, the callbacks invoked on the client).

    The Qt classes the code drives ([QFile], [QNetworkReply]) are not part of
    the repository; they are modelled after Qt's documented behaviour, each
    assumption stated where the operation is defined.

    The static helpers that build the User-Agent header ([MacAddress],
    [FsCreationTime], [UniqueClientId], [UserAgent]) are embedded too: the
    state machine takes their results from a [Platform], and module [Probe]
    computes them from the interfaces and drives of a machine. *)

From Stdlib Require Import ZArith Ascii String List Bool Lia.
From stdpp Require Import base option list gmap strings pretty.

Local Open Scope string_scope.
Local Open Scope list_scope.
Local Open Scope Z_scope.

(** ** Constants *)

(** [#define MAX_AUTOMATIC_RETRIES 2] *)
Definition MAX_AUTOMATIC_RETRIES : Z := 2.

(** Values of [QNetworkReply::NetworkError] the code compares against
    (Qt's enumeration: NoError = 0, the network-layer errors 1..99 ending with
    UnknownNetworkError, ContentNotFoundError = 203). *)
Definition NoError : Z := 0.
Definition ConnectionRefusedError : Z := 1.
Definition TimeoutError : Z := 4.
Definition OperationCanceledError : Z := 5.
Definition UnknownNetworkError : Z := 99.
Definition ContentNotFoundError : Z := 203.

(** Modelled from the spec: the enumeration of download results, declared in
    a header that is not among the sources.  The spec lists four statuses
    (Ok, Failed, FileNotFound, FileLocked); they are the four values this
    file hands to the finish callback. *)
Inductive DownloadResult :=
| EHttpDownloadOk
| EHttpDownloadFileNotFound
| EHttpDownloadFailed
| EHttpDownloadFileIsLocked.

(** ** Strings: [QString::lastIndexOf] and [QString::left] *)

(** Index of the last occurrence of [pat] in [s], or -1.  (For an empty
    pattern Qt's answer is not used by the code: the temporary extension is
    not empty.) *)
Fixpoint lastIndexOf (pat s : string) : Z :=
  match s with
  | EmptyString => if String.prefix pat s then 0 else -1
  | String _ s' =>
      let r := lastIndexOf pat s' in
      if 0 <=? r then r + 1 else if String.prefix pat s then 0 else -1
  end.

(** [QString::left(n)]: the [n] leftmost characters; the entire string when
    [n] is negative or exceeds the size. *)
Definition left (n : Z) (s : string) : string :=
  if (n <? 0) || (Z.of_nat (String.length s) <? n) then s
  else String.substring 0 (Z.to_nat n) s.

(** ** The disk *)

Abbreviation QByteArray := (list Byte.byte).

(** Files by name, and the set of names the process may not write to, remove
    or replace (a file locked by another process, a read-only place).  The
    set does not change while a session runs. *)
Record FileSystem := {
  files : gmap string QByteArray;
  locked : gset string;
}.

Definition fs_with_files (m : gmap string QByteArray) (fs : FileSystem) : FileSystem :=
  {| files := m; locked := locked fs |}.

Definition fs_size (name : string) (fs : FileSystem) : Z :=
  match files fs !! name with
  | Some c => Z.of_nat (length c)
  | None => 0
  end.

(** [QFile::remove(name)] (static): false when the file is absent or cannot
    be removed. *)
Definition fs_remove (name : string) (fs : FileSystem) : bool * FileSystem :=
  match files fs !! name with
  | None => (false, fs)
  | Some _ =>
      if decide (name ∈ locked fs) then (false, fs)
      else (true, fs_with_files (delete name (files fs)) fs)
  end.

(** Renaming never overwrites: [QFile::rename] returns false if a file named
    [dst] already exists. *)
Definition fs_rename (src dst : string) (fs : FileSystem) : bool * FileSystem :=
  match files fs !! src, files fs !! dst with
  | Some c, None =>
      if decide (src ∈ locked fs) then (false, fs)
      else if decide (dst ∈ locked fs) then (false, fs)
      else (true, fs_with_files (<[dst := c]> (delete src (files fs))) fs)
  | _, _ => (false, fs)
  end.

(** Bytes of a file after [data] is written at offset [p] (a hole before the
    offset reads as zero bytes). *)
Definition write_at (p : nat) (data c : QByteArray) : QByteArray :=
  take p c ++ replicate (p - length c) Byte.x00 ++ data ++ drop (p + length data) c.

(** ** QFile *)

Inductive OpenMode := NotOpen | WriteOnly | Append.

Record QFile := {
  fileName : string;
  openMode : OpenMode;
  pos : Z;
}.

Definition new_QFile (name : string) : QFile :=
  {| fileName := name; openMode := NotOpen; pos := 0 |}.

Definition isOpen (f : QFile) : bool :=
  match openMode f with NotOpen => false | _ => true end.

(** [QFile::open]: fails on a file that is already open and on a name that
    cannot be written; [WriteOnly] creates or truncates the file and starts at
    offset 0, [Append] creates it if needed, keeps its bytes and starts at its
    end. *)
Definition QFile_open (mode : OpenMode) (f : QFile) (fs : FileSystem)
  : bool * QFile * FileSystem :=
  if isOpen f then (false, f, fs)
  else if decide (fileName f ∈ locked fs) then (false, f, fs)
  else
    match mode with
    | NotOpen => (false, f, fs)
    | WriteOnly =>
        (true, {| fileName := fileName f; openMode := WriteOnly; pos := 0 |},
         fs_with_files (<[fileName f := []]> (files fs)) fs)
    | Append =>
        let c := default [] (files fs !! fileName f) in
        (true, {| fileName := fileName f; openMode := Append;
                  pos := Z.of_nat (length c) |},
         fs_with_files (<[fileName f := c]> (files fs)) fs)
    end.

(** [QIODevice::close]: the open mode becomes [NotOpen] and the position is
    reset to 0; nothing happens on a device that is not open. *)
Definition QFile_close (f : QFile) : QFile :=
  match openMode f with
  | NotOpen => f
  | _ => {| fileName := fileName f; openMode := NotOpen; pos := 0 |}
  end.

(** [QIODevice::write]: on a device that is not open nothing is written (the
    call returns -1).  In [Append] mode the bytes go to the end of the file,
    in [WriteOnly] mode to the current position. *)
Definition QFile_write (data : QByteArray) (f : QFile) (fs : FileSystem)
  : QFile * FileSystem :=
  match openMode f with
  | NotOpen => (f, fs)
  | mode =>
      let c := default [] (files fs !! fileName f) in
      let c' := match mode with
                | Append => c ++ data
                | _ => write_at (Z.to_nat (pos f)) data c
                end in
      ({| fileName := fileName f; openMode := mode;
          pos := pos f + Z.of_nat (length data) |},
       fs_with_files (<[fileName f := c']> (files fs)) fs)
  end.

(** [QFile::size]: the size of the file on disk, open or not. *)
Definition QFile_size (f : QFile) (fs : FileSystem) : Z := fs_size (fileName f) fs.

(** [QFile::resize(0)] *)
Definition QFile_resize0 (f : QFile) (fs : FileSystem) : FileSystem :=
  match files fs !! fileName f with
  | None => fs
  | Some _ =>
      if decide (fileName f ∈ locked fs) then fs
      else fs_with_files (<[fileName f := []]> (files fs)) fs
  end.

(** [QFile::remove()]: closes the file, then removes it from the disk. *)
Definition QFile_remove (f : QFile) (fs : FileSystem) : bool * QFile * FileSystem :=
  let '(ok, fs') := fs_remove (fileName f) fs in (ok, QFile_close f, fs').

(** [QFile::rename(newName)]: closes the file; on success the object carries
    the new name. *)
Definition QFile_rename (newName : string) (f : QFile) (fs : FileSystem)
  : bool * QFile * FileSystem :=
  let '(ok, fs') := fs_rename (fileName f) newName fs in
  let f' := QFile_close f in
  (ok, if ok then {| fileName := newName; openMode := openMode f'; pos := pos f' |}
       else f', fs').

(** ** The session object and its world *)

(** A request handed to [QNetworkAccessManager::get]. *)
Record QNetworkRequest := {
  url : string;
  rawHeaders : list (string * string);
}.

(** An invocation of one of the client's callbacks. *)
Inductive Callback :=
| Finish (name : string) (result : DownloadResult)
| Progress (name : string) (bytesRead totalBytes : Z).

(** The members of [QtDownload] (a pointer is an [option], null being [None];
    a reply is named by the index of its request; [m_finish] and [m_progress]
    tell whether the callback object holds a function), followed by the world:
    the disk, the requests issued so far, the replies handed to
    [deleteLater], the callbacks invoked so far, and whether the object has
    called [deleteLater] on itself.

    [m_retryCounter] is declared in the class header, which is not among the
    sources; whatever integer type it has, it never goes beyond 3
    ([C3_retry_counter]), so its arithmetic is that of [Z]. *)
Record State := {
  objectName : string;
  m_currentUrl : string;
  m_reply : option nat;
  m_file : option QFile;
  m_httpRequestAborted : bool;
  m_finish : bool;
  m_progress : bool;
  m_retryCounter : Z;
  disk : FileSystem;
  sent : list QNetworkRequest;
  released : list nat;
  calls : list Callback;
  selfDeleted : bool;
}.

Definition set_objectName (v : string) (s : State) : State :=
  {| objectName := v; m_currentUrl := m_currentUrl s; m_reply := m_reply s;
     m_file := m_file s; m_httpRequestAborted := m_httpRequestAborted s;
     m_finish := m_finish s; m_progress := m_progress s;
     m_retryCounter := m_retryCounter s; disk := disk s; sent := sent s;
     released := released s; calls := calls s; selfDeleted := selfDeleted s |}.

Definition set_currentUrl (v : string) (s : State) : State :=
  {| objectName := objectName s; m_currentUrl := v; m_reply := m_reply s;
     m_file := m_file s; m_httpRequestAborted := m_httpRequestAborted s;
     m_finish := m_finish s; m_progress := m_progress s;
     m_retryCounter := m_retryCounter s; disk := disk s; sent := sent s;
     released := released s; calls := calls s; selfDeleted := selfDeleted s |}.

Definition set_reply (v : option nat) (s : State) : State :=
  {| objectName := objectName s; m_currentUrl := m_currentUrl s; m_reply := v;
     m_file := m_file s; m_httpRequestAborted := m_httpRequestAborted s;
     m_finish := m_finish s; m_progress := m_progress s;
     m_retryCounter := m_retryCounter s; disk := disk s; sent := sent s;
     released := released s; calls := calls s; selfDeleted := selfDeleted s |}.

Definition set_file (v : option QFile) (s : State) : State :=
  {| objectName := objectName s; m_currentUrl := m_currentUrl s;
     m_reply := m_reply s; m_file := v;
     m_httpRequestAborted := m_httpRequestAborted s;
     m_finish := m_finish s; m_progress := m_progress s;
     m_retryCounter := m_retryCounter s; disk := disk s; sent := sent s;
     released := released s; calls := calls s; selfDeleted := selfDeleted s |}.

Definition set_aborted (v : bool) (s : State) : State :=
  {| objectName := objectName s; m_currentUrl := m_currentUrl s;
     m_reply := m_reply s; m_file := m_file s; m_httpRequestAborted := v;
     m_finish := m_finish s; m_progress := m_progress s;
     m_retryCounter := m_retryCounter s; disk := disk s; sent := sent s;
     released := released s; calls := calls s; selfDeleted := selfDeleted s |}.

Definition set_retryCounter (v : Z) (s : State) : State :=
  {| objectName := objectName s; m_currentUrl := m_currentUrl s;
     m_reply := m_reply s; m_file := m_file s;
     m_httpRequestAborted := m_httpRequestAborted s;
     m_finish := m_finish s; m_progress := m_progress s;
     m_retryCounter := v; disk := disk s; sent := sent s;
     released := released s; calls := calls s; selfDeleted := selfDeleted s |}.

Definition set_disk (v : FileSystem) (s : State) : State :=
  {| objectName := objectName s; m_currentUrl := m_currentUrl s;
     m_reply := m_reply s; m_file := m_file s;
     m_httpRequestAborted := m_httpRequestAborted s;
     m_finish := m_finish s; m_progress := m_progress s;
     m_retryCounter := m_retryCounter s; disk := v; sent := sent s;
     released := released s; calls := calls s; selfDeleted := selfDeleted s |}.

Definition set_sent (v : list QNetworkRequest) (s : State) : State :=
  {| objectName := objectName s; m_currentUrl := m_currentUrl s;
     m_reply := m_reply s; m_file := m_file s;
     m_httpRequestAborted := m_httpRequestAborted s;
     m_finish := m_finish s; m_progress := m_progress s;
     m_retryCounter := m_retryCounter s; disk := disk s; sent := v;
     released := released s; calls := calls s; selfDeleted := selfDeleted s |}.

Definition set_released (v : list nat) (s : State) : State :=
  {| objectName := objectName s; m_currentUrl := m_currentUrl s;
     m_reply := m_reply s; m_file := m_file s;
     m_httpRequestAborted := m_httpRequestAborted s;
     m_finish := m_finish s; m_progress := m_progress s;
     m_retryCounter := m_retryCounter s; disk := disk s; sent := sent s;
     released := v; calls := calls s; selfDeleted := selfDeleted s |}.

Definition set_calls (v : list Callback) (s : State) : State :=
  {| objectName := objectName s; m_currentUrl := m_currentUrl s;
     m_reply := m_reply s; m_file := m_file s;
     m_httpRequestAborted := m_httpRequestAborted s;
     m_finish := m_finish s; m_progress := m_progress s;
     m_retryCounter := m_retryCounter s; disk := disk s; sent := sent s;
     released := released s; calls := v; selfDeleted := selfDeleted s |}.

Definition set_selfDeleted (v : bool) (s : State) : State :=
  {| objectName := objectName s; m_currentUrl := m_currentUrl s;
     m_reply := m_reply s; m_file := m_file s;
     m_httpRequestAborted := m_httpRequestAborted s;
     m_finish := m_finish s; m_progress := m_progress s;
     m_retryCounter := m_retryCounter s; disk := disk s; sent := sent s;
     released := released s; calls := calls s; selfDeleted := v |}.

(** ** The monad of member functions

    A member function reads and updates the state and may fail: [None] is the
    dereference of a null pointer. *)
Definition M (A : Type) : Type := State → option (A * State).

Definition ret {A} (a : A) : M A := λ s, Some (a, s).
Definition bind {A B} (m : M A) (k : A → M B) : M B := λ s,
  match m s with
  | Some (a, s') => k a s'
  | None => None
  end.

Declare Scope qt_scope.
Notation "x ← y ; z" := (bind y (λ x, z))
  (at level 20, y at level 100, z at level 200) : qt_scope.
Notation "x ;; z" := (bind x (λ _, z))
  (at level 100, z at level 200, right associativity) : qt_scope.
Local Open Scope qt_scope.

Definition gets {A} (f : State → A) : M A := λ s, Some (f s, s).
Definition modify (f : State → State) : M unit := λ s, Some (tt, f s).

(** A pointer used as a condition. *)
Definition non_null {A} (p : option A) : bool :=
  match p with Some _ => true | None => false end.

(** [m_file->] and [m_reply->] *)
Definition deref_file : M QFile := λ s,
  match m_file s with Some f => Some (f, s) | None => None end.
Definition deref_reply : M nat := λ s,
  match m_reply s with Some r => Some (r, s) | None => None end.

(** Writes reach the disk at once in this model, so [flush] has nothing to
    do; the code looks at the disk ([size], [rename]) only after a [flush] or
    a [close]. *)
Definition file_flush : M unit := _ ← deref_file; ret tt.

Definition file_close : M unit :=
  f ← deref_file; modify (set_file (Some (QFile_close f))).

Definition file_open (mode : OpenMode) : M bool :=
  f ← deref_file; fs ← gets disk;
  let '(ok, f', fs') := QFile_open mode f fs in
  modify (set_file (Some f'));; modify (set_disk fs');; ret ok.

Definition file_write (data : QByteArray) : M unit :=
  f ← deref_file; fs ← gets disk;
  let '(f', fs') := QFile_write data f fs in
  modify (set_file (Some f'));; modify (set_disk fs').

Definition file_resize0 : M unit :=
  f ← deref_file; fs ← gets disk; modify (set_disk (QFile_resize0 f fs)).

Definition file_remove : M unit :=
  f ← deref_file; fs ← gets disk;
  let '(_, f', fs') := QFile_remove f fs in
  modify (set_file (Some f'));; modify (set_disk fs').

Definition file_rename (newName : string) : M bool :=
  f ← deref_file; fs ← gets disk;
  let '(ok, f', fs') := QFile_rename newName f fs in
  modify (set_file (Some f'));; modify (set_disk fs');; ret ok.

(** [delete m_file; m_file = 0;] *)
Definition delete_file : M unit := modify (set_file None).

(** [m_reply->deleteLater()] *)
Definition reply_deleteLater : M unit :=
  r ← deref_reply; modify (λ s, set_released (released s ++ [r]) s).

(** [if (m_finish) m_finish(name, result);] *)
Definition call_finish (name : string) (result : DownloadResult) : M unit :=
  modify (λ s, if m_finish s then set_calls (calls s ++ [Finish name result]) s else s).

(** [deleteLater()] on the session itself *)
Definition deleteLater : M unit := modify (set_selfDeleted true).

(** [NetAccessManager().get(httpRequest)], the reply stored in [m_reply] and
    its signals connected to the slots below. *)
Definition NetAccessManager_get (req : QNetworkRequest) : M unit :=
  modify (λ s, set_reply (Some (length (sent s))) (set_sent (sent s ++ [req]) s)).

(** What the platform contributes: the macros of headers that are not part of
    this file, the strings [MacAddress()] and [FsCreationTime()] obtain by
    probing the network interfaces and the drives, and [QUrl::resolved]. *)
Record Platform := {
  DOWNLOADING_FILE_EXTENSION : string;
  OMIM_OS_NAME : string;
  VERSION_STRING : string;
  MacAddress : string;
  FsCreationTime : string;
  resolved : string → string → string;
}.

Section Download.
Context (P : Platform).

Definition UniqueClientId : string :=
  let result := MacAddress P in
  if Nat.eqb (String.length result) 0 then
    let result := FsCreationTime P in
    if Nat.eqb (String.length result) 0 then "------------" else result
  else result.

Definition UserAgent : string :=
  "MWM(" +:+ OMIM_OS_NAME P +:+ ")/" +:+ VERSION_STRING P +:+ "/" +:+ UniqueClientId.

Definition range_header (fileSize : Z) : list (string * string) :=
  if 0 <? fileSize then [("Range", "bytes=" +:+ pretty fileSize +:+ "-")] else [].

Definition StartRequest : M unit :=
  currentUrl ← gets m_currentUrl;
  f ← deref_file;
  fs ← gets disk;
  let fileSize := QFile_size f fs in
  NetAccessManager_get
    {| url := currentUrl;
       rawHeaders := ("User-Agent", UserAgent) :: range_header fileSize |}.

(** The slot connected to [finished()]; [netError] is [m_reply->error()] and
    [redirectionTarget] the reply's redirection attribute ([None] when the
    variant is null). *)
Definition OnHttpFinished (netError : Z) (redirectionTarget : option string) : M unit :=
  aborted ← gets m_httpRequestAborted;
  if aborted then
    file_close;; file_remove;; delete_file;;
    reply_deleteLater;; modify (set_reply None)
  else
    file_flush;; file_close;;
    _ ← deref_reply;
    if negb (netError =? 0) then
      retry ← (if netError <=? UnknownNetworkError then
                 modify (λ s, set_retryCounter (m_retryCounter s + 1) s);;
                 c ← gets m_retryCounter;
                 ret (c <=? MAX_AUTOMATIC_RETRIES)
               else ret false);
      if retry then
        reply_deleteLater;; StartRequest
      else
        f ← deref_file;
        (if pos f =? 0 then file_remove else ret tt);;
        delete_file;;
        reply_deleteLater;; modify (set_reply None);;
        name ← gets objectName;
        call_finish name (if netError =? ContentNotFoundError
                          then EHttpDownloadFileNotFound else EHttpDownloadFailed);;
        deleteLater
    else
      match redirectionTarget with
      | Some target =>
          modify (λ s, set_currentUrl (resolved P (m_currentUrl s) target) s);;
          file_open WriteOnly;;
          file_resize0;;
          reply_deleteLater;; StartRequest
      | None =>
          f ← deref_file;
          let originalFileName :=
            left (lastIndexOf (DOWNLOADING_FILE_EXTENSION P) (fileName f)) (fileName f) in
          modify (λ s, set_disk (snd (fs_remove originalFileName (disk s))) s);;
          renamed ← file_rename originalFileName;
          (if renamed then ret tt else file_remove);;
          let resultForGui := renamed in
          delete_file;;
          reply_deleteLater;; modify (set_reply None);;
          name ← gets objectName;
          call_finish name (if resultForGui
                            then EHttpDownloadOk else EHttpDownloadFileIsLocked);;
          deleteLater
      end.

(** The slot connected to [readyRead()]; [data] is [m_reply->readAll()]. *)
Definition OnHttpReadyRead (data : QByteArray) : M unit :=
  file ← gets m_file; reply ← gets m_reply;
  if non_null file && non_null reply then file_write data else ret tt.

(** The slot connected to [downloadProgress(qint64, qint64)]. *)
Definition OnUpdateDataReadProgress (bytesRead totalBytes : Z) : M unit :=
  modify (λ s,
    if negb (m_httpRequestAborted s) && m_progress s
    then set_calls (calls s ++ [Progress (objectName s) bytesRead totalBytes]) s
    else s).

(** The members as the initialiser list of the constructor leaves them. *)
Definition init (url : string) (finish progress : bool) (fs : FileSystem) : State :=
  {| objectName := ""; m_currentUrl := url; m_reply := None; m_file := None;
     m_httpRequestAborted := false; m_finish := finish; m_progress := progress;
     m_retryCounter := 0; disk := fs; sent := []; released := []; calls := [];
     selfDeleted := false |}.

(** The body of the constructor. *)
Definition QtDownload_body (url fileName : string) (useResume : bool) : M unit :=
  let tmpFileName := fileName +:+ DOWNLOADING_FILE_EXTENSION P in
  modify (set_file (Some (new_QFile tmpFileName)));;
  opened ← file_open (if useResume then Append else WriteOnly);
  if negb opened then
    delete_file;;
    call_finish url EHttpDownloadFailed;;
    deleteLater
  else
    modify (set_objectName url);;
    modify (set_currentUrl url);;
    StartRequest.

(** [~QtDownload()]: aborting the reply calls [OnHttpFinished]. *)
Definition destructor : M unit :=
  r ← gets m_reply;
  match r with
  | Some _ =>
      modify (set_aborted true);;
      OnHttpFinished OperationCanceledError None
  | None => ret tt
  end.

(** [QtDownload::StartDownload]: the session it creates and the world after
    the constructor has run on the disk [fs].  (The assertion on its
    arguments is about null pointers, which strings are not.) *)
Definition StartDownload (url fileName : string) (finish progress useResume : bool)
    (fs : FileSystem) : option State :=
  snd <$> QtDownload_body url fileName useResume (init url finish progress fs).

(** ** Events *)

(** What happens to a session after its creation: a signal of the reply in
    flight, or the destruction of the object by its owner. *)
Inductive Event :=
| ReadyRead (data : QByteArray)
| DownloadProgress (bytesRead totalBytes : Z)
| Finished (netError : Z) (redirectionTarget : option string)
| Destroy.

Definition slot (ev : Event) : M unit :=
  match ev with
  | ReadyRead data => OnHttpReadyRead data
  | DownloadProgress bytesRead totalBytes => OnUpdateDataReadProgress bytesRead totalBytes
  | Finished netError redirectionTarget => OnHttpFinished netError redirectionTarget
  | Destroy => destructor
  end.

(** A signal reaches its slot only while a reply is connected, that is while
    [m_reply] holds one. *)
Definition deliver (ev : Event) (s : State) : option State :=
  match ev, m_reply s with
  | Destroy, _ | _, Some _ => snd <$> slot ev s
  | _, None => Some s
  end.

Fixpoint run (evs : list Event) (s : State) : option State :=
  match evs with
  | [] => Some s
  | ev :: evs' =>
      match deliver ev s with
      | Some s' => run evs' s'
      | None => None
      end
  end.

(** A whole session: creation, then the events in order. *)
Definition session (url fileName : string) (finish progress useResume : bool)
    (fs : FileSystem) (evs : list Event) : option State :=
  match StartDownload url fileName finish progress useResume fs with
  | Some s => run evs s
  | None => None
  end.

(** ** Phases of a session

    What holds of a session created by [StartDownload url fileName finish _ _]
    on the disk [fs0], at any moment between two events. *)

Definition tmpFileName (fileName : string) : string :=
  fileName +:+ DOWNLOADING_FILE_EXTENSION P.

(** The invocations of the finish callback among the calls. *)
Definition finishes (cs : list Callback) : list (string * DownloadResult) :=
  omap (λ c, match c with Finish n r => Some (n, r) | Progress _ _ _ => None end) cs.

(** Every file but the temporary one is as it was when the session began. *)
Definition others_untouched (path : string) (fs0 : FileSystem) (s : State) : Prop :=
  ∀ p, p ≠ tmpFileName path → files (disk s) !! p = files fs0 !! p.

(** A reply is in flight. *)
Record Live (u path : string) (fs0 : FileSystem) (s : State) : Prop := {
  live_reply : is_Some (m_reply s);
  live_file : ∃ f, m_file s = Some f ∧ fileName f = tmpFileName path
                   ∧ (openMode f = NotOpen → pos f = 0);
  live_writable : tmpFileName path ∉ locked (disk s);
  live_on_disk : is_Some (files (disk s) !! tmpFileName path);
  live_not_aborted : m_httpRequestAborted s = false;
  live_not_deleted : selfDeleted s = false;
  live_name : objectName s = u;
  live_counter : 0 ≤ m_retryCounter s ≤ MAX_AUTOMATIC_RETRIES;
  live_silent : finishes (calls s) = [];
  live_others : others_untouched path fs0 s;
}.

(** The session has reported its result and asked to be deleted. *)
Record Done (u : string) (finish : bool) (s : State) : Prop := {
  done_reply : m_reply s = None;
  done_file : m_file s = None;
  done_not_aborted : m_httpRequestAborted s = false;
  done_deleted : selfDeleted s = true;
  done_counter : 0 ≤ m_retryCounter s ≤ MAX_AUTOMATIC_RETRIES + 1;
  done_reported : ∃ result, finishes (calls s) = if finish then [(u, result)] else [];
}.

(** The session was destroyed by its owner while a reply was in flight. *)
Record Aborted (path : string) (fs0 : FileSystem) (s : State) : Prop := {
  aborted_reply : m_reply s = None;
  aborted_file : m_file s = None;
  aborted_flag : m_httpRequestAborted s = true;
  aborted_counter : 0 ≤ m_retryCounter s ≤ MAX_AUTOMATIC_RETRIES;
  aborted_silent : finishes (calls s) = [];
  aborted_tmp_gone : files (disk s) !! tmpFileName path = None;
  aborted_others : others_untouched path fs0 s;
}.

Record Inv (u path : string) (finish : bool) (fs0 : FileSystem) (s : State) : Prop := {
  inv_locked : locked (disk s) = locked fs0;
  inv_finish : m_finish s = finish;
  inv_phase : Live u path fs0 s ∨ Done u finish s ∨ Aborted path fs0 s;
}.

(** The temporary file is open and holds [c], the next write going to its
    end. *)
Definition Streaming (path : string) (c : QByteArray) (s : State) : Prop :=
  ∃ mode p,
    m_file s = Some {| fileName := tmpFileName path; openMode := mode; pos := p |}
    ∧ mode ≠ NotOpen
    ∧ (mode = WriteOnly → p = Z.of_nat (length c))
    ∧ files (disk s) !! tmpFileName path = Some c.

End Download.

(** ** Vocabulary of the statements *)

(** The request [StartRequest] issues when the session is in state [s]. *)
Definition request_at (P : Platform) (path : string) (s : State) : QNetworkRequest :=
  {| url := m_currentUrl s;
     rawHeaders := ("User-Agent", UserAgent P)
       :: range_header (fs_size (tmpFileName P path) (disk s)) |}.

(** A reply that finished with a network-layer error, the kind the code
    retries. *)
Definition transient (ev : Event) : bool :=
  match ev with
  | Finished netError _ => negb (netError =? NoError) && (netError <=? UnknownNetworkError)
  | _ => false
  end.

(** A reply that finished without error and names a redirection target. *)
Definition is_redirect (ev : Event) : bool :=
  match ev with
  | Finished netError (Some _) => netError =? NoError
  | _ => false
  end.

(** Body data, progress reports and redirections. *)
Definition keeps_going (ev : Event) : bool :=
  match ev with
  | ReadyRead _ | DownloadProgress _ _ => true
  | Finished _ _ => is_redirect ev
  | Destroy => false
  end.

(** ** Sample inputs *)

Definition omim : Platform :=
  {| DOWNLOADING_FILE_EXTENSION := ".downloading"; OMIM_OS_NAME := "linux";
     VERSION_STRING := "1.0"; MacAddress := ""; FsCreationTime := "";
     resolved := λ _ target, target |}.

Definition empty_disk : FileSystem := {| files := ∅; locked := ∅ |}.

(** A disk on which the temporary file of "a.mwm" cannot be opened. *)
Definition readonly_disk : FileSystem :=
  {| files := ∅; locked := {[ "a.mwm.downloading" ]} |}.

(** A disk that holds twelve bytes of an earlier attempt at "a.mwm". *)
Definition partial_disk : FileSystem :=
  {| files := {[ "a.mwm.downloading" := list_byte_of_string "0123456789ab" ]};
     locked := ∅ |}.

(** A disk on which "a.mwm" exists and is locked by another process. *)
Definition locked_disk : FileSystem :=
  {| files := {[ "a.mwm" := list_byte_of_string "old" ]};
     locked := {[ "a.mwm" ]} |}.

Definition AB : QByteArray := list_byte_of_string "AB".
Definition CD : QByteArray := list_byte_of_string "CD".

(** ** Vocabulary of the further properties *)

(** The bytes a run of body data, progress reports and redirections leaves in
    a temporary file that held [c]: a chunk is appended, a redirection
    empties the file. *)
Fixpoint streamed (c : QByteArray) (evs : list Event) : QByteArray :=
  match evs with
  | [] => c
  | ev :: evs' =>
      streamed (match ev with
                | ReadyRead data => c ++ data
                | _ => if is_redirect ev then [] else c
                end) evs'
  end.

(** The URL such a run leaves in [m_currentUrl], starting from [u]. *)
Fixpoint redirected (P : Platform) (u : string) (evs : list Event) : string :=
  match evs with
  | [] => u
  | ev :: evs' =>
      redirected P (match ev with
                    | Finished _ (Some target) =>
                        if is_redirect ev then resolved P u target else u
                    | _ => u
                    end) evs'
  end.

(** A progress report for the download of [u]. *)
Definition progress_of (u : string) (c : Callback) : Prop :=
  ∃ bytesRead totalBytes, c = Progress u bytesRead totalBytes.

(** The headers of a request: the user agent, then possibly a range that
    starts at a positive offset. *)
Definition headers_ok (P : Platform) (req : QNetworkRequest) : Prop :=
  rawHeaders req = [("User-Agent", UserAgent P)]
  ∨ ∃ size, 0 < size
      ∧ rawHeaders req = [("User-Agent", UserAgent P);
                          ("Range", "bytes=" +:+ pretty size +:+ "-")].

(** Replies are numbered by their requests: the one in flight belongs to the
    last request, all earlier ones have been handed to [deleteLater], once
    each and in order. *)
Definition handles_in_order (s : State) : Prop :=
  match m_reply s with
  | Some r => length (sent s) = S r ∧ released s = seq 0 r
  | None => released s = seq 0 (length (sent s))
  end.

(** The request in flight is the last one issued, and it is for the current
    URL. *)
Definition current_request (s : State) : Prop :=
  ∃ r req, m_reply s = Some r ∧ sent s !! r = Some req
           ∧ length (sent s) = S r ∧ url req = m_currentUrl s.

(** A session touches no file but the temporary one and the destination. *)
Definition Footprint (P : Platform) (path : string) (fs0 : FileSystem)
    (s : State) : Prop :=
  ∀ p, p ≠ tmpFileName P path → p ≠ path → files (disk s) !! p = files fs0 !! p.

(** Where a session for [u] leaves the destination: it holds a file, and the
    temporary file is gone, if [EHttpDownloadOk] was reported; it is as it
    was before the session unless the session went through the success
    branch, that is unless [EHttpDownloadOk] or [EHttpDownloadFileIsLocked]
    was reported. *)
Definition Outcome (P : Platform) (u path : string) (fs0 : FileSystem)
    (s : State) : Prop :=
  (finishes (calls s) = [(u, EHttpDownloadOk)] →
     is_Some (files (disk s) !! path)
     ∧ files (disk s) !! tmpFileName P path = None)
  ∧ (finishes (calls s) ≠ [(u, EHttpDownloadOk)] →
     finishes (calls s) ≠ [(u, EHttpDownloadFileIsLocked)] →
       files (disk s) !! path = files fs0 !! path).

(** ** The identity of the client *)

(** The static helpers [MacAddress] and [FsCreationTime] read the machine:
    the list of network interfaces and the list of drives are their inputs
    here.  [QString::toULongLong] is not part of this code and is taken as a
    function [toULongLong] that returns [None] when the conversion fails;
    [QString("%1").arg(n)] is the decimal numeral of [n]. *)
Module Probe.

(** [QNetworkInterface::InterfaceFlag]. *)
Definition IsUp : Z := 1.
Definition IsRunning : Z := 2.
Definition CanBroadcast : Z := 4.
Definition IsLoopBack : Z := 8.
Definition IsPointToPoint : Z := 16.
Definition CanMulticast : Z := 32.

Record QNetworkInterface := {
  hardwareAddress : string;
  addressEntries : list string;
  flags : Z;
}.

(** A drive: its absolute path and [created().toTime_t()]. *)
Record QFileInfo := {
  absolutePath : string;
  created : N;
}.

(** [QString::remove(QChar)]: every occurrence of the character goes. *)
Fixpoint remove (c : Ascii.ascii) (s : string) : string :=
  match s with
  | EmptyString => EmptyString
  | String a s' => if Ascii.eqb a c then remove c s' else String a (remove c s')
  end.

Definition startsWith (s p : string) : bool := String.prefix p s.

Section Parse.

Variable toULongLong : string → option N.

Fixpoint MacAddress (interfaces : list QNetworkInterface) : string :=
  match interfaces with
  | [] => ""
  | iface :: rest =>
      let hwAddr := hardwareAddress iface in
      if negb (bool_decide (addressEntries iface = []))
         && (Z.land (flags iface)
               (Z.lor (Z.lor (Z.lor IsUp IsRunning) CanBroadcast) CanMulticast)
             =? flags iface)
         && Nat.eqb (String.length hwAddr) 17
      then
        let hwAddr := remove ":"%char hwAddr in
        match toULongLong hwAddr with
        | Some numAddr => pretty numAddr
        | None => MacAddress rest
        end
      else MacAddress rest
  end.

End Parse.

Fixpoint FsCreationTime (drives : list QFileInfo) : string :=
  match drives with
  | [] => ""
  | info :: rest =>
      let path := absolutePath info in
      if String.eqb path "/" || startsWith path "C:"
      then pretty (created info)
      else FsCreationTime rest
  end.

End Probe.

(** The platform of a machine with the given interfaces and drives. *)
Definition platform_of (ext os version : string)
    (resolve : string → string → string)
    (toULongLong : string → option N)
    (interfaces : list Probe.QNetworkInterface)
    (drives : list Probe.QFileInfo) : Platform :=
  {| DOWNLOADING_FILE_EXTENSION := ext; OMIM_OS_NAME := os;
     VERSION_STRING := version;
     MacAddress := Probe.MacAddress toULongLong interfaces;
     FsCreationTime := Probe.FsCreationTime drives;
     resolved := resolve |}.

(** ** Vocabulary of the identity properties *)

(** An interface [MacAddress] may use: it has an address entry, every flag
    set on it is one of [IsUp], [IsRunning], [CanBroadcast] and
    [CanMulticast], and its hardware address is 17 characters long. *)
Definition usable (iface : Probe.QNetworkInterface) : Prop :=
  Probe.addressEntries iface ≠ []
  ∧ (∀ i, Z.testbit (Probe.flags iface) i = true →
          2 ^ i ∈ [Probe.IsUp; Probe.IsRunning; Probe.CanBroadcast;
                   Probe.CanMulticast])
  ∧ String.length (Probe.hardwareAddress iface) = 17%nat.

(** A usable interface whose address, colons removed, converts to [n]. *)
Definition chosen (toULongLong : string → option N)
    (iface : Probe.QNetworkInterface) (n : N) : Prop :=
  usable iface
  ∧ toULongLong (Probe.remove ":"%char (Probe.hardwareAddress iface)) = Some n.

(** The drives [FsCreationTime] looks for. *)
Definition is_root (path : string) : Prop :=
  path = "/" ∨ ∃ rest, path = "C:" +:+ rest.

(** Two interfaces that differ at most in [IsUp] and [IsRunning]. *)
Definition same_but_state (a b : Probe.QNetworkInterface) : Prop :=
  Probe.hardwareAddress a = Probe.hardwareAddress b
  ∧ Probe.addressEntries a = Probe.addressEntries b
  ∧ Z.lor (Probe.flags a) (Z.lor Probe.IsUp Probe.IsRunning)
    = Z.lor (Probe.flags b) (Z.lor Probe.IsUp Probe.IsRunning).

(** Strings of decimal digits. *)
Fixpoint digits (s : string) : bool :=
  match s with
  | EmptyString => true
  | String a s' =>
      (48 <=? Ascii.N_of_ascii a)%N && (Ascii.N_of_ascii a <=? 57)%N && digits s'
  end.

(** ** Sample machines *)

Definition hex_digit (a : Ascii.ascii) : option N :=
  let n := Ascii.N_of_ascii a in
  if (48 <=? n)%N && (n <=? 57)%N then Some (n - 48)%N
  else if (97 <=? n)%N && (n <=? 102)%N then Some (n - 87)%N
  else if (65 <=? n)%N && (n <=? 70)%N then Some (n - 55)%N
  else None.

Fixpoint hex_go (acc : N) (s : string) : option N :=
  match s with
  | EmptyString => Some acc
  | String a s' =>
      match hex_digit a with
      | Some d => hex_go (16 * acc + d)%N s'
      | None => None
      end
  end.

(** A conversion that accepts a non-empty run of hexadecimal digits whose
    value fits 64 bits. *)
Definition hex (s : string) : option N :=
  match s with
  | EmptyString => None
  | _ => match hex_go 0 s with
         | Some n => if (n <? 2 ^ 64)%N then Some n else None
         | None => None
         end
  end.

Definition eth0 : Probe.QNetworkInterface :=
  {| Probe.hardwareAddress := "00:1a:2b:3c:4d:5e";
     Probe.addressEntries := ["192.168.0.2"];
     Probe.flags := 39 |}.

(** The same card, neither up nor running. *)
Definition eth0_down : Probe.QNetworkInterface :=
  {| Probe.hardwareAddress := "00:1a:2b:3c:4d:5e";
     Probe.addressEntries := ["192.168.0.2"];
     Probe.flags := 36 |}.

Definition lo : Probe.QNetworkInterface :=
  {| Probe.hardwareAddress := "00:00:00:00:00:00";
     Probe.addressEntries := ["127.0.0.1"];
     Probe.flags := 11 |}.

Definition root_drive : Probe.QFileInfo :=
  {| Probe.absolutePath := "/"; Probe.created := 1300000000 |}.

Definition home_drive : Probe.QFileInfo :=
  {| Probe.absolutePath := "/home"; Probe.created := 1400000000 |}.

(** * Properties *)

#[local] Arguments finishes : simpl never.
#[local] Arguments deliver : simpl never.
#[local] Arguments range_header : simpl never.

Lemma finishes_app (cs cs' : list Callback) :
  finishes (cs ++ cs') = finishes cs ++ finishes cs'.
Proof. apply omap_app. Qed.

(** Normalisation of a slot applied to a state whose members are named:
    the monad, the setters and the projections are unfolded, the operations
    on the disk are left to their equations. *)
Ltac norm :=
  cbv [OnHttpFinished OnHttpReadyRead OnUpdateDataReadProgress destructor
       StartRequest QtDownload_body file_flush file_close file_open file_write
       file_resize0 file_remove file_rename delete_file reply_deleteLater
       call_finish deleteLater NetAccessManager_get deref_file deref_reply
       bind ret gets modify MAX_AUTOMATIC_RETRIES NoError
       set_objectName set_currentUrl set_reply set_file set_aborted
       set_retryCounter set_disk set_sent set_released set_calls set_selfDeleted
       objectName m_currentUrl m_reply m_file m_httpRequestAborted m_finish
       m_progress m_retryCounter disk sent released calls selfDeleted
       fileName openMode pos QFile_close isOpen new_QFile files locked
       fs_with_files QFile_size QFile_write
       fmap option_fmap option_map snd fst negb andb non_null
       deliver slot init StartDownload].

Ltac arith := unfold MAX_AUTOMATIC_RETRIES in *; lia.

(** Name the members of a live session and the facts that hold of them. *)
Ltac live_open H :=
  destruct H as [[r Hr] (f & Hf & Hname & Hpos) Hw [c Hc] Hab Hdel Hnm Hcnt Hsil Hoth];
  match goal with s : State |- _ =>
    destruct s as [on cu mr mf ab fi pr rc [fl lk] sn rl cl sd] end;
  destruct f as [fn om ps];
  unfold others_untouched, tmpFileName in *; simpl in *; subst;
  destruct om; [specialize (Hpos eq_refl); subst ps | clear Hpos ..].

Ltac file_goal := eexists; split; [reflexivity|]; simpl; by split.

Ltac done_goal :=
  split; simpl; try done; try arith;
  match goal with
  | Hsil : finishes _ = [] |- _ => rewrite ?finishes_app, ?Hsil
  end;
  first [by eauto | by exists EHttpDownloadFailed].

(** ** The name of the temporary file *)

Lemma prefix_length (p s : string) :
  String.prefix p s = true → (String.length p ≤ String.length s)%nat.
Proof.
  revert s; induction p as [|a p IH]; intros [|b s]; simpl; try lia; try discriminate.
  destruct (Ascii.ascii_dec a b); [|discriminate].
  intros H; apply IH in H; lia.
Qed.

Lemma prefix_refl (p : string) : String.prefix p p = true.
Proof.
  induction p as [|a p IH]; simpl; [done|].
  destruct (Ascii.ascii_dec a a); [done|congruence].
Qed.

Lemma prefix_app (p s : string) : String.prefix p (p +:+ s) = true.
Proof.
  induction p as [|a p IH]; simpl; [by destruct s|].
  destruct (Ascii.ascii_dec a a); [done|congruence].
Qed.

Lemma lastIndexOf_short (pat s : string) :
  (String.length s < String.length pat)%nat → lastIndexOf pat s = -1.
Proof.
  induction s as [|a s IH]; intros Hlen.
  - destruct pat; simpl in *; [lia|done].
  - cbn [lastIndexOf]. rewrite IH by (simpl in Hlen; lia). simpl (0 <=? -1).
    destruct (String.prefix pat (String a s)) eqn:Hp; [|done].
    apply prefix_length in Hp. simpl in Hp, Hlen. exfalso. lia.
Qed.

Lemma lastIndexOf_app (pat s : string) :
  pat ≠ "" → lastIndexOf pat (s +:+ pat) = Z.of_nat (String.length s).
Proof.
  intros Hne. induction s as [|a s IH].
  - change ("" +:+ pat) with pat.
    destruct pat as [|c pat]; [done|]. cbn [lastIndexOf].
    rewrite (lastIndexOf_short (String c pat) pat) by (simpl; lia).
    simpl (0 <=? -1). by rewrite prefix_refl.
  - change (String a s +:+ pat) with (String a (s +:+ pat)).
    cbn [lastIndexOf String.length]. rewrite IH.
    destruct (Z.leb_spec 0 (Z.of_nat (String.length s))); lia.
Qed.

Lemma length_string_app (s t : string) :
  String.length (s +:+ t) = (String.length s + String.length t)%nat.
Proof. induction s as [|a s IH]; simpl; [done|]. by rewrite IH. Qed.

Lemma substring_app (s t : string) :
  String.substring 0 (String.length s) (s +:+ t) = s.
Proof.
  induction s as [|a s IH]; simpl; [by destruct t|]. by rewrite IH.
Qed.

Lemma left_app (s t : string) : left (Z.of_nat (String.length s)) (s +:+ t) = s.
Proof.
  unfold left. rewrite length_string_app, Nat2Z.id.
  destruct (Z.ltb_spec (Z.of_nat (String.length s)) 0); [lia|].
  destruct (Z.ltb_spec (Z.of_nat (String.length s + String.length t))
              (Z.of_nat (String.length s))); [lia|].
  apply substring_app.
Qed.

(** Line 208 recovers the name the caller asked for from the name of the
    temporary file. *)
Lemma originalFileName_tmp (ext path : string) :
  ext ≠ "" → left (lastIndexOf ext (path +:+ ext)) (path +:+ ext) = path.
Proof. intros Hne. rewrite lastIndexOf_app by done. apply left_app. Qed.

Lemma tmp_ne_path (ext path : string) : ext ≠ "" → path +:+ ext ≠ path.
Proof.
  intros Hne Heq. apply (f_equal String.length) in Heq.
  rewrite length_string_app in Heq. destruct ext; [done|]. simpl in Heq. lia.
Qed.

#[local] Arguments left : simpl never.
#[local] Arguments lastIndexOf : simpl never.

(** ** Equations of the operations on files *)

Section Facts.
Context (P : Platform).

Lemma fileName_close (f : QFile) : fileName (QFile_close f) = fileName f.
Proof. by destruct f as [? [] ?]. Qed.

Lemma isOpen_close (f : QFile) : isOpen (QFile_close f) = false.
Proof. by destruct f as [? [] ?]. Qed.

Lemma pos_close (f : QFile) :
  (openMode f = NotOpen → pos f = 0) → pos (QFile_close f) = 0.
Proof. destruct f as [? [] ?]; simpl; auto. Qed.

Lemma fs_remove_present (n : string) (fl : gmap string QByteArray) (lk : gset string) :
  is_Some (fl !! n) → n ∉ lk →
  fs_remove n {| files := fl; locked := lk |}
  = (true, {| files := delete n fl; locked := lk |}).
Proof.
  intros [c Hc] Hlk. unfold fs_remove; simpl. rewrite Hc.
  by rewrite decide_False.
Qed.

Lemma fs_remove_locked (n : string) (fl : gmap string QByteArray) (lk : gset string) :
  n ∈ lk →
  fs_remove n {| files := fl; locked := lk |} = (false, {| files := fl; locked := lk |}).
Proof.
  intros Hlk. unfold fs_remove; simpl. destruct (fl !! n); [|done].
  by rewrite decide_True.
Qed.

Lemma fs_remove_unlocked (n : string) (fl : gmap string QByteArray) (lk : gset string) :
  n ∉ lk →
  fs_remove n {| files := fl; locked := lk |}
  = (bool_decide (is_Some (fl !! n)), {| files := delete n fl; locked := lk |}).
Proof.
  intros Hlk. unfold fs_remove; simpl. destruct (fl !! n) eqn:Hn.
  - rewrite decide_False by done. by rewrite bool_decide_true.
  - rewrite delete_id by done. rewrite bool_decide_false; [done|].
    by intros [? ?].
Qed.

Lemma fs_rename_ok (src dst : string) (fl : gmap string QByteArray)
    (lk : gset string) (c : QByteArray) :
  fl !! src = Some c → fl !! dst = None → src ∉ lk → dst ∉ lk →
  fs_rename src dst {| files := fl; locked := lk |}
  = (true, {| files := <[dst := c]> (delete src fl); locked := lk |}).
Proof.
  intros Hs Hd Hls Hld. unfold fs_rename; simpl. rewrite Hs, Hd.
  by rewrite !decide_False.
Qed.

Lemma fs_rename_locked (src dst : string) (fl : gmap string QByteArray)
    (lk : gset string) :
  dst ∈ lk →
  fs_rename src dst {| files := fl; locked := lk |}
  = (false, {| files := fl; locked := lk |}).
Proof.
  intros Hld. unfold fs_rename; simpl.
  destruct (fl !! src); [|done]. destruct (fl !! dst); [done|].
  destruct (decide (src ∈ lk)); [done|]. by rewrite decide_True.
Qed.

Lemma QFile_remove_present (f : QFile) (fl : gmap string QByteArray) (lk : gset string) :
  is_Some (fl !! fileName f) → fileName f ∉ lk →
  QFile_remove f {| files := fl; locked := lk |}
  = (true, QFile_close f, {| files := delete (fileName f) fl; locked := lk |}).
Proof.
  intros Hc Hlk. unfold QFile_remove. by rewrite fs_remove_present.
Qed.

Lemma QFile_rename_ok (dst : string) (f : QFile) (fl : gmap string QByteArray)
    (lk : gset string) (c : QByteArray) :
  fl !! fileName f = Some c → fl !! dst = None → fileName f ∉ lk → dst ∉ lk →
  QFile_rename dst f {| files := fl; locked := lk |}
  = (true, {| fileName := dst; openMode := openMode (QFile_close f);
              pos := pos (QFile_close f) |},
     {| files := <[dst := c]> (delete (fileName f) fl); locked := lk |}).
Proof.
  intros Hs Hd Hls Hld. unfold QFile_rename.
  by rewrite (fs_rename_ok _ _ _ _ c).
Qed.

Lemma QFile_rename_locked (dst : string) (f : QFile) (fl : gmap string QByteArray)
    (lk : gset string) :
  dst ∈ lk →
  QFile_rename dst f {| files := fl; locked := lk |}
  = (false, QFile_close f, {| files := fl; locked := lk |}).
Proof. intros Hld. unfold QFile_rename. by rewrite fs_rename_locked. Qed.

Lemma QFile_open_WriteOnly (f : QFile) (fl : gmap string QByteArray) (lk : gset string) :
  isOpen f = false → fileName f ∉ lk →
  QFile_open WriteOnly f {| files := fl; locked := lk |}
  = (true, {| fileName := fileName f; openMode := WriteOnly; pos := 0 |},
     {| files := <[fileName f := []]> fl; locked := lk |}).
Proof.
  intros Hop Hlk. unfold QFile_open. rewrite Hop. simpl.
  by rewrite decide_False.
Qed.

Lemma QFile_resize0_present (f : QFile) (fl : gmap string QByteArray) (lk : gset string) :
  is_Some (fl !! fileName f) → fileName f ∉ lk →
  QFile_resize0 f {| files := fl; locked := lk |}
  = {| files := <[fileName f := []]> fl; locked := lk |}.
Proof.
  intros [c Hc] Hlk. unfold QFile_resize0; simpl. rewrite Hc.
  by rewrite decide_False.
Qed.

Lemma StartDownload_inv (u path : string) (finish progress useResume : bool)
    (fs0 : FileSystem) :
  ∃ s, StartDownload P u path finish progress useResume fs0 = Some s
       ∧ Inv P u path finish fs0 s.
Proof.
  destruct fs0 as [fl lk]. norm. unfold QFile_open. norm.
  destruct (decide (_ ∈ lk)) as [Hl|Hl].
  - destruct finish; (eexists; split; [reflexivity|]); (split; [done|done|]);
      right; left; (split; simpl; try done); by exists EHttpDownloadFailed.
  - destruct useResume; norm; (eexists; split; [reflexivity|]);
      (split; [done|done|]); left; (split; simpl; try done).
    all: try (eexists; split; [reflexivity|]; simpl; by split).
    all: unfold tmpFileName; try by rewrite lookup_insert_eq.
    all: intros p Hp; simpl; unfold tmpFileName in Hp; by rewrite lookup_insert_ne.
Qed.

(** Nothing reaches a session that holds no reply. *)
Lemma deliver_no_reply (ev : Event) (s : State) :
  m_reply s = None → deliver P ev s = Some s.
Proof.
  intros H. destruct s; simpl in H; subst. by destruct ev.
Qed.

Lemma readyRead_live u path fs0 s data :
  Live P u path fs0 s →
  ∃ s', deliver P (ReadyRead data) s = Some s'
        ∧ Live P u path fs0 s'
        ∧ locked (disk s') = locked (disk s) ∧ m_finish s' = m_finish s
        ∧ calls s' = calls s ∧ sent s' = sent s
        ∧ m_retryCounter s' = m_retryCounter s
        ∧ m_currentUrl s' = m_currentUrl s.
Proof.
  intros HL. live_open HL; norm;
    (eexists; split; [reflexivity|]); (split; [|done]);
    (split; simpl; try done; try by eauto).
  all: try (eexists; split; [reflexivity|]; simpl; by split).
  all: unfold tmpFileName in *; try by rewrite lookup_insert_eq.
  all: intros p Hp; simpl; rewrite lookup_insert_ne by done; auto.
Qed.

Lemma progress_live u path fs0 s bytesRead totalBytes :
  Live P u path fs0 s →
  ∃ s', deliver P (DownloadProgress bytesRead totalBytes) s = Some s'
        ∧ Live P u path fs0 s'
        ∧ disk s' = disk s ∧ m_finish s' = m_finish s
        ∧ calls s' = calls s ++
            (if m_progress s then [Progress u bytesRead totalBytes] else [])
        ∧ sent s' = sent s
        ∧ m_retryCounter s' = m_retryCounter s
        ∧ m_currentUrl s' = m_currentUrl s.
Proof.
  intros HL. live_open HL; destruct pr; norm;
    (eexists; split; [reflexivity|]); simpl; rewrite ?app_nil_r; (split; [|done]);
    (split; simpl; try done; try by eauto).
  all: try file_goal.
  all: by rewrite finishes_app, Hsil.
Qed.

Lemma finished_retry u path fs0 s netError red :
  Live P u path fs0 s →
  netError ≠ 0 → netError ≤ UnknownNetworkError →
  m_retryCounter s < MAX_AUTOMATIC_RETRIES →
  ∃ s', deliver P (Finished netError red) s = Some s'
        ∧ Live P u path fs0 s'
        ∧ disk s' = disk s ∧ m_finish s' = m_finish s
        ∧ calls s' = calls s
        ∧ sent s' = sent s ++
            [{| url := m_currentUrl s;
                rawHeaders := ("User-Agent", UserAgent P)
                  :: range_header (fs_size (tmpFileName P path) (disk s)) |}]
        ∧ m_retryCounter s' = m_retryCounter s + 1
        ∧ m_currentUrl s' = m_currentUrl s
        ∧ ∃ f, m_file s' = Some f ∧ openMode f = NotOpen.
Proof.
  intros HL Hne Hle Hlt.
  assert ((netError =? 0) = false) as E1 by lia.
  assert ((netError <=? UnknownNetworkError) = true) as E2 by lia.
  live_open HL; assert ((rc + 1 <=? 2) = true) as E3 by arith;
    norm; rewrite E1; norm; rewrite E2; norm; rewrite E3; norm;
    (eexists; split; [reflexivity|]); simpl;
    (split; [|by eauto 10]); (split; simpl; try done; try by eauto).
  all: first [arith | eexists; split; [reflexivity|]; simpl; by split].
Qed.

Lemma finished_fail u path fs0 s netError red :
  Live P u path fs0 s →
  netError ≠ 0 →
  UnknownNetworkError < netError ∨ MAX_AUTOMATIC_RETRIES ≤ m_retryCounter s →
  ∃ s', deliver P (Finished netError red) s = Some s'
        ∧ Done u (m_finish s) s'
        ∧ locked (disk s') = locked (disk s) ∧ m_finish s' = m_finish s
        ∧ files (disk s') = delete (tmpFileName P path) (files (disk s))
        ∧ calls s' = calls s ++
            (if m_finish s
             then [Finish u (if netError =? ContentNotFoundError
                             then EHttpDownloadFileNotFound else EHttpDownloadFailed)]
             else [])
        ∧ sent s' = sent s
        ∧ m_retryCounter s' =
            m_retryCounter s + (if netError <=? UnknownNetworkError then 1 else 0).
Proof.
  intros HL Hne Hor.
  assert ((netError =? 0) = false) as E1 by lia.
  live_open HL;
    assert ((if netError <=? UnknownNetworkError then rc + 1 <=? 2 else false) = false)
      as E2 by (destruct (Z.leb_spec netError UnknownNetworkError); arith);
    norm; rewrite E1; norm;
    (destruct (netError <=? UnknownNetworkError); norm; [rewrite E2|]; norm;
     rewrite Z.eqb_refl; norm;
     rewrite QFile_remove_present by (simpl; eauto); norm;
     destruct fi; norm; (eexists; split; [reflexivity|]);
     split_and!; simpl; rewrite ?app_nil_r, ?Z.add_0_r; try done; by done_goal).
Qed.

Lemma finished_redirect u path fs0 s target :
  Live P u path fs0 s →
  ∃ s', deliver P (Finished NoError (Some target)) s = Some s'
        ∧ Live P u path fs0 s'
        ∧ locked (disk s') = locked (disk s) ∧ m_finish s' = m_finish s
        ∧ files (disk s') = <[tmpFileName P path := []]> (files (disk s))
        ∧ m_file s' = Some {| fileName := tmpFileName P path;
                              openMode := WriteOnly; pos := 0 |}
        ∧ calls s' = calls s
        ∧ m_currentUrl s' = resolved P (m_currentUrl s) target
        ∧ sent s' = sent s ++
            [{| url := resolved P (m_currentUrl s) target;
                rawHeaders := [("User-Agent", UserAgent P)] |}]
        ∧ m_retryCounter s' = m_retryCounter s.
Proof.
  intros HL. live_open HL; norm; rewrite Z.eqb_refl; norm;
    rewrite QFile_open_WriteOnly by done; norm;
    rewrite QFile_resize0_present by (simpl; by rewrite ?lookup_insert_eq); norm;
    unfold fs_size; norm; rewrite insert_insert_eq, lookup_insert_eq;
    (eexists; split; [reflexivity|]); simpl; (split; [|done]);
    (split; simpl; try done; try file_goal; try by eauto).
  all: unfold tmpFileName; try by rewrite lookup_insert_eq.
  all: intros p Hp; simpl; rewrite lookup_insert_ne by done; auto.
Qed.

Lemma finished_success u path fs0 s :
  DOWNLOADING_FILE_EXTENSION P ≠ "" →
  Live P u path fs0 s →
  ∃ s' c, deliver P (Finished NoError None) s = Some s'
        ∧ files (disk s) !! tmpFileName P path = Some c
        ∧ Done u (m_finish s) s'
        ∧ locked (disk s') = locked (disk s) ∧ m_finish s' = m_finish s
        ∧ sent s' = sent s
        ∧ m_retryCounter s' = m_retryCounter s
        ∧ files (disk s') !! tmpFileName P path = None
        ∧ (∀ p, p ≠ tmpFileName P path → p ≠ path →
             files (disk s') !! p = files (disk s) !! p)
        ∧ (path ∉ locked (disk s) →
             calls s' = calls s ++
               (if m_finish s then [Finish u EHttpDownloadOk] else [])
             ∧ files (disk s') !! path = Some c)
        ∧ (path ∈ locked (disk s) →
             calls s' = calls s ++
               (if m_finish s then [Finish u EHttpDownloadFileIsLocked] else [])
             ∧ files (disk s') !! path = files (disk s) !! path).
Proof.
  intros Hext HL. pose proof (tmp_ne_path _ path Hext) as Htmp.
  live_open HL; norm; rewrite Z.eqb_refl; norm;
    rewrite originalFileName_tmp by done;
    (destruct (decide (path ∈ lk)) as [Hlk|Hlk];
     [ (* the destination cannot be replaced: the rename fails *)
       rewrite fs_remove_locked by done; norm;
       rewrite QFile_rename_locked by done; norm;
       rewrite QFile_remove_present by (simpl; eauto); norm
     | (* the destination is free once the old file is removed *)
       rewrite fs_remove_unlocked by done; norm;
       rewrite (QFile_rename_ok _ _ _ _ c)
         by (simpl; rewrite ?lookup_delete_eq, ?lookup_delete_ne by done; done);
       norm ]);
    destruct fi; norm; (eexists _, c; split; [reflexivity|]);
    split_and!; simpl; rewrite ?app_nil_r; try done; try by done_goal.
  all: unfold tmpFileName.
  all: try by rewrite lookup_delete_eq.
  all: try by rewrite lookup_insert_ne, lookup_delete_eq.
  all: try (intros p Hp1 Hp2; by rewrite ?lookup_insert_ne, !lookup_delete_ne).
  all: intros _; split; [reflexivity|];
       first [by rewrite lookup_delete_ne | by rewrite lookup_insert_eq].
Qed.

Lemma destroy_live u path fs0 s :
  Live P u path fs0 s →
  ∃ s' r, deliver P Destroy s = Some s'
        ∧ m_reply s = Some r
        ∧ Aborted P path fs0 s'
        ∧ locked (disk s') = locked (disk s) ∧ m_finish s' = m_finish s
        ∧ files (disk s') = delete (tmpFileName P path) (files (disk s))
        ∧ calls s' = calls s ∧ sent s' = sent s
        ∧ released s' = released s ++ [r]
        ∧ selfDeleted s' = selfDeleted s
        ∧ m_reply s' = None ∧ m_file s' = None
        ∧ m_httpRequestAborted s' = true
        ∧ m_retryCounter s' = m_retryCounter s.
Proof.
  intros HL. live_open HL; norm;
    rewrite QFile_remove_present by (simpl; eauto); norm;
    (eexists _, r; split; [reflexivity|]); simpl; (split; [done|]); (split; [|done]);
    (split; simpl; try done; try arith).
  all: unfold tmpFileName; try by rewrite lookup_delete_eq.
  all: intros p Hp; simpl; rewrite lookup_delete_ne by done; auto.
Qed.

Lemma fs_remove_same_locked (n : string) (fs : FileSystem) :
  locked (snd (fs_remove n fs)) = locked fs.
Proof.
  unfold fs_remove. destruct (files fs !! n); [|done].
  by destruct (decide (n ∈ locked fs)).
Qed.

Lemma fs_rename_same_locked (src dst : string) (fs : FileSystem) :
  locked (snd (fs_rename src dst fs)) = locked fs.
Proof.
  unfold fs_rename. destruct (files fs !! src); [|done].
  destruct (files fs !! dst); [done|].
  destruct (decide (src ∈ locked fs)); [done|].
  by destruct (decide (dst ∈ locked fs)).
Qed.

Lemma QFile_rename_same_locked (dst : string) (f : QFile) (fs : FileSystem) :
  locked (snd (QFile_rename dst f fs)) = locked fs.
Proof.
  unfold QFile_rename. pose proof (fs_rename_same_locked (fileName f) dst fs) as H.
  by destruct (fs_rename (fileName f) dst fs).
Qed.

Lemma QFile_remove_same_locked (f : QFile) (fs : FileSystem) :
  locked (snd (QFile_remove f fs)) = locked fs.
Proof.
  unfold QFile_remove. pose proof (fs_remove_same_locked (fileName f) fs) as H.
  by destruct (fs_remove (fileName f) fs).
Qed.

(** Whatever the temporary extension is, a clean finish ends the session. *)
Lemma finished_success_done u path fs0 s :
  Live P u path fs0 s →
  ∃ s', deliver P (Finished NoError None) s = Some s'
        ∧ Done u (m_finish s) s'
        ∧ locked (disk s') = locked (disk s) ∧ m_finish s' = m_finish s
        ∧ sent s' = sent s
        ∧ m_retryCounter s' = m_retryCounter s.
Proof.
  intros HL. live_open HL; norm; rewrite Z.eqb_refl; norm.
  all: match goal with |- context [fs_remove ?o ?fs] =>
         pose proof (fs_remove_same_locked o fs) as H1;
         destruct (fs_remove o fs) as [b1 [fl1 lk1]]; simpl in H1; subst lk1
       end; norm.
  all: match goal with |- context [QFile_rename ?o ?f ?fs] =>
         pose proof (QFile_rename_same_locked o f fs) as H2;
         destruct (QFile_rename o f fs) as [[ok f'] [fl2 lk2]]; simpl in H2; subst lk2
       end; norm.
  all: destruct ok; norm.
  all: try match goal with |- context [QFile_remove ?f ?fs] =>
         pose proof (QFile_remove_same_locked f fs) as H3;
         destruct (QFile_remove f fs) as [[b3 f3] [fl3 lk3]]; simpl in H3; subst lk3
       end; norm.
  all: destruct fi; norm; (eexists; split; [reflexivity|]);
       split_and!; simpl; try done; by done_goal.
Qed.

(** ** The phases are invariant *)

Lemma deliver_inv u path finish fs0 ev s :
  Inv P u path finish fs0 s →
  ∃ s', deliver P ev s = Some s' ∧ Inv P u path finish fs0 s'.
Proof.
  intros [Hlk Hfin [HL | [HD | HA]]].
  - destruct ev as [data | bytesRead totalBytes | netError red | ].
    + destruct (readyRead_live _ _ _ _ data HL) as (s' & E & HL' & Hlk' & Hfin' & _).
      exists s'. split; [done|]. split; [congruence|congruence|by left].
    + destruct (progress_live _ _ _ _ bytesRead totalBytes HL)
        as (s' & E & HL' & Hd & Hfin' & _).
      exists s'. split; [done|]. split; [congruence|congruence|by left].
    + destruct (decide (netError = 0)) as [->|Hne].
      * destruct red as [target|].
        -- destruct (finished_redirect _ _ _ _ target HL)
             as (s' & E & HL' & Hlk' & Hfin' & _).
           exists s'. split; [done|]. split; [congruence|congruence|by left].
        -- destruct (finished_success_done _ _ _ _ HL)
             as (s' & E & HD & Hlk' & Hfin' & _).
           exists s'. split; [done|]. rewrite Hfin in HD.
           split; [congruence|congruence|by right; left].
      * destruct (decide (netError ≤ UnknownNetworkError
                          ∧ m_retryCounter s < MAX_AUTOMATIC_RETRIES)) as [[? ?]|Hno].
        -- destruct (finished_retry _ _ _ _ netError red HL)
             as (s' & E & HL' & Hd & Hfin' & _); [done..|].
           exists s'. split; [done|]. split; [congruence|congruence|by left].
        -- destruct (finished_fail _ _ _ _ netError red HL)
             as (s' & E & HD & Hlk' & Hfin' & _); [done|lia|].
           exists s'. split; [done|]. rewrite Hfin in HD.
           split; [congruence|congruence|by right; left].
    + destruct (destroy_live _ _ _ _ HL) as (s' & r & E & _ & HA & Hlk' & Hfin' & _).
      exists s'. split; [done|]. split; [congruence|congruence|by right; right].
  - exists s. split; [apply deliver_no_reply, HD|]. split; auto.
  - exists s. split; [apply deliver_no_reply, HA|]. split; auto.
Qed.

Lemma run_inv u path finish fs0 evs s :
  Inv P u path finish fs0 s →
  ∃ s', run P evs s = Some s' ∧ Inv P u path finish fs0 s'.
Proof.
  revert s. induction evs as [|ev evs IH]; intros s HI; simpl.
  - by exists s.
  - destruct (deliver_inv _ _ _ _ ev _ HI) as (s1 & -> & HI1). by apply IH.
Qed.

(** Every session runs: no event makes a slot dereference a null pointer. *)
Lemma session_inv u path finish progress useResume fs0 evs :
  ∃ s, session P u path finish progress useResume fs0 evs = Some s
       ∧ Inv P u path finish fs0 s.
Proof.
  unfold session.
  destruct (StartDownload_inv u path finish progress useResume fs0) as (s0 & -> & HI).
  by apply run_inv.
Qed.

Lemma session_reaches u path finish progress useResume fs0 evs s :
  session P u path finish progress useResume fs0 evs = Some s →
  Inv P u path finish fs0 s.
Proof.
  intros E. destruct (session_inv u path finish progress useResume fs0 evs)
    as (s' & E' & HI). congruence.
Qed.

Lemma Inv_live u path finish fs0 s :
  Inv P u path finish fs0 s → is_Some (m_reply s) → Live P u path fs0 s.
Proof.
  intros [_ _ [HL | [HD | HA]]] [r Hr]; [done|..].
  - rewrite (done_reply _ _ _ HD) in Hr. done.
  - rewrite (aborted_reply _ _ _ _ HA) in Hr. done.
Qed.

(** ** The constructor *)

Lemma StartDownload_opened u path finish progress useResume fs0 :
  tmpFileName P path ∉ locked fs0 →
  ∃ s0, StartDownload P u path finish progress useResume fs0 = Some s0
        ∧ Live P u path fs0 s0
        ∧ m_retryCounter s0 = 0 ∧ calls s0 = [] ∧ m_currentUrl s0 = u
        ∧ sent s0 = [request_at P path s0]
        ∧ files (disk s0) !! tmpFileName P path
          = Some (if useResume
                  then default [] (files fs0 !! tmpFileName P path) else []).
Proof.
  intros Hl. destruct fs0 as [fl lk]. unfold tmpFileName in *. simpl in Hl.
  norm. unfold QFile_open. norm. rewrite decide_False by done.
  destruct useResume; norm; (eexists; split; [reflexivity|]);
    unfold request_at, tmpFileName; simpl; rewrite lookup_insert_eq;
    (split; [|done]); (split; simpl; try done; try file_goal).
  all: unfold tmpFileName; try by rewrite lookup_insert_eq.
  all: intros p Hp; simpl; by rewrite lookup_insert_ne.
Qed.

Lemma StartDownload_refused u path finish progress useResume fs0 :
  tmpFileName P path ∈ locked fs0 →
  ∃ s0, StartDownload P u path finish progress useResume fs0 = Some s0
        ∧ calls s0 = (if finish then [Finish u EHttpDownloadFailed] else [])
        ∧ sent s0 = [] ∧ m_reply s0 = None ∧ m_file s0 = None
        ∧ m_httpRequestAborted s0 = false
        ∧ selfDeleted s0 = true ∧ m_retryCounter s0 = 0 ∧ disk s0 = fs0.
Proof.
  intros Hl. destruct fs0 as [fl lk]. unfold tmpFileName in *. simpl in Hl.
  norm. unfold QFile_open. norm. rewrite decide_True by done.
  destruct finish; norm; (eexists; split; [reflexivity|]); done.
Qed.

(** ** One event *)

(** What an event does to the retry counter and to the requests issued. *)
Lemma deliver_step u path finish fs0 ev s :
  Inv P u path finish fs0 s →
  ∃ s', deliver P ev s = Some s'
        ∧ m_retryCounter s' = m_retryCounter s
            + (if bool_decide (is_Some (m_reply s)) && transient ev then 1 else 0)
        ∧ (sent s' = sent s ∨ sent s' = sent s ++ [request_at P path s']).
Proof.
  intros [Hlk Hfin [HL | [HD | HA]]].
  - rewrite bool_decide_true by apply HL. simpl.
    destruct ev as [data | bytesRead totalBytes | netError red | ]; simpl.
    + destruct (readyRead_live _ _ _ _ data HL)
        as (s' & E & _ & _ & _ & _ & Hs & Hc & _).
      exists s'. rewrite Hs, Hc. split_and!; [done|lia|by left].
    + destruct (progress_live _ _ _ _ bytesRead totalBytes HL)
        as (s' & E & _ & _ & _ & _ & Hs & Hc & _).
      exists s'. rewrite Hs, Hc. split_and!; [done|lia|by left].
    + destruct (decide (netError = 0)) as [->|Hne].
      * simpl. destruct red as [target|].
        -- destruct (finished_redirect _ _ _ _ target HL)
             as (s' & E & _ & _ & _ & Hf & _ & _ & Hu & Hs & Hc).
           exists s'. rewrite Hs, Hc. split_and!; [done|lia|right].
           unfold request_at, fs_size. rewrite Hu, Hf, lookup_insert_eq. done.
        -- destruct (finished_success_done _ _ _ _ HL)
             as (s' & E & _ & _ & _ & Hs & Hc).
           exists s'. rewrite Hs, Hc. split_and!; [done|lia|by left].
      * assert ((netError =? NoError) = false) as -> by (unfold NoError; lia). simpl.
        destruct (decide (netError ≤ UnknownNetworkError
                          ∧ m_retryCounter s < MAX_AUTOMATIC_RETRIES)) as [[? ?]|Hno].
        -- destruct (finished_retry _ _ _ _ netError red HL)
             as (s' & E & _ & Hd & _ & _ & Hs & Hc & Hu & _); [done..|].
           exists s'. rewrite Hs, Hc.
           assert ((netError <=? UnknownNetworkError) = true) as -> by lia.
           split_and!; [done|done|right]. unfold request_at. by rewrite Hu, Hd.
        -- destruct (finished_fail _ _ _ _ netError red HL)
             as (s' & E & _ & _ & _ & _ & _ & Hs & Hc); [done|lia|].
           exists s'. rewrite Hs, Hc. split_and!; [done|done|by left].
    + destruct (destroy_live _ _ _ _ HL)
        as (s' & r & E & _ & _ & _ & _ & _ & _ & Hs & _ & _ & _ & _ & _ & Hc).
      exists s'. rewrite Hs, Hc. split_and!; [done|lia|by left].
  - exists s. rewrite (deliver_no_reply _ _ (done_reply _ _ _ HD)).
    rewrite bool_decide_false by (rewrite (done_reply _ _ _ HD); by intros [? ?]).
    simpl. split_and!; [done|lia|by left].
  - exists s. rewrite (deliver_no_reply _ _ (aborted_reply _ _ _ _ HA)).
    rewrite bool_decide_false by (rewrite (aborted_reply _ _ _ _ HA); by intros [? ?]).
    simpl. split_and!; [done|lia|by left].
Qed.

(** Body data, progress reports and redirections keep a session going. *)
Lemma run_keeps_going u path fs0 evs s :
  Live P u path fs0 s →
  forallb keeps_going evs = true →
  ∃ s', run P evs s = Some s'
        ∧ Live P u path fs0 s'
        ∧ m_retryCounter s' = m_retryCounter s
        ∧ length (sent s') = (length (sent s) + length (List.filter is_redirect evs))%nat.
Proof.
  revert s. induction evs as [|ev evs IH]; intros s HL Hall; simpl in *.
  - exists s. split_and!; [done|done|done|lia].
  - apply andb_prop in Hall as [Hev Hall].
    assert (∃ s1, deliver P ev s = Some s1 ∧ Live P u path fs0 s1
                  ∧ m_retryCounter s1 = m_retryCounter s
                  ∧ length (sent s1)
                    = (length (sent s) + if is_redirect ev then 1 else 0)%nat)
      as (s1 & -> & HL1 & Hc1 & Hs1).
    { destruct ev as [data | bytesRead totalBytes | netError [target|] | ];
        simpl in Hev; try done.
      - destruct (readyRead_live _ _ _ _ data HL)
          as (s' & E & ? & _ & _ & _ & Hs & Hc & _).
        exists s'. simpl. rewrite Hs. split_and!; [done|done|done|lia].
      - destruct (progress_live _ _ _ _ bytesRead totalBytes HL)
          as (s' & E & ? & _ & _ & _ & Hs & Hc & _).
        exists s'. simpl. rewrite Hs. split_and!; [done|done|done|lia].
      - apply Z.eqb_eq in Hev as ->.
        destruct (finished_redirect _ _ _ _ target HL)
          as (s' & E & ? & _ & _ & _ & _ & _ & _ & Hs & Hc).
        exists s'. simpl. rewrite Hs, length_app. simpl.
        split_and!; [done|done|done|lia]. }
    destruct (IH s1 HL1 Hall) as (s' & E & HL' & Hc & Hs).
    exists s'. split_and!; [done|done|congruence|].
    rewrite Hs, Hs1. destruct (is_redirect ev); simpl; lia.
Qed.

Lemma run_no_reply (evs : list Event) (s : State) :
  m_reply s = None → run P evs s = Some s.
Proof.
  intros H. induction evs as [|ev evs IH]; simpl; [done|].
  by rewrite deliver_no_reply.
Qed.

(** A chunk that arrives while the file is closed is not written. *)
Lemma readyRead_closed (s : State) (f : QFile) (r : nat) (data : QByteArray) :
  m_reply s = Some r → m_file s = Some f → openMode f = NotOpen →
  deliver P (ReadyRead data) s = Some s.
Proof.
  destruct s, f; simpl; intros -> -> ->. by norm.
Qed.

(** With the abort flag set no slot invokes a callback or issues a request. *)
Lemma aborted_slot_silent (t t' : State) (ev : Event) :
  m_httpRequestAborted t = true →
  slot P ev t = Some (tt, t') →
  calls t' = calls t ∧ sent t' = sent t ∧ m_httpRequestAborted t' = true.
Proof.
  destruct t as [on cu mr mf ab fi pr rc dk sn rl cl sd]; simpl; intros ->.
  destruct ev as [data | bytesRead totalBytes | netError red | ].
  - destruct mf as [[fn [] ps]|], mr as [r|]; norm; by intros [= <-].
  - norm. by intros [= <-].
  - destruct mf as [[fn [] ps]|]; norm; try done.
    all: destruct (QFile_remove _ dk) as [[b f'] dk']; norm.
    all: destruct mr as [r|]; norm; [|done]; by intros [= <-].
  - destruct mr as [r|]; norm; [|by intros [= <-]].
    destruct mf as [[fn [] ps]|]; norm; try done.
    all: destruct (QFile_remove _ dk) as [[b f'] dk']; norm.
    all: by intros [= <-].
Qed.

Lemma range_header_zero : range_header 0 = [].
Proof. done. Qed.

(** ** Streaming *)

Lemma write_at_end (data c : QByteArray) :
  write_at (Z.to_nat (Z.of_nat (length c))) data c = c ++ data.
Proof.
  unfold write_at. rewrite Nat2Z.id, take_ge, Nat.sub_diag, drop_ge by lia.
  simpl. by rewrite app_nil_r.
Qed.

Lemma run_app (evs1 evs2 : list Event) (s : State) :
  run P (evs1 ++ evs2) s
  = match run P evs1 s with Some s1 => run P evs2 s1 | None => None end.
Proof.
  revert s. induction evs1 as [|ev evs1 IH]; intros s; simpl; [done|].
  destruct (deliver P ev s); [apply IH|done].
Qed.

(** A chunk that arrives while the file is open is appended to it. *)
Lemma readyRead_appends u path fs0 s c data :
  Live P u path fs0 s → Streaming P path c s →
  ∃ s', deliver P (ReadyRead data) s = Some s'
        ∧ Live P u path fs0 s' ∧ Streaming P path (c ++ data) s'
        ∧ calls s' = calls s ∧ sent s' = sent s.
Proof.
  intros HL (mode & p & Hm & Hmode & Hp & Hc).
  destruct (readyRead_live _ _ _ _ data HL) as (s' & E & HL' & _ & _ & Hcl & Hs & _).
  exists s'. split_and!; try done.
  destruct HL as [[r Hr] _ _ _ _ _ _ _ _ _].
  destruct s as [on cu mr mf ab fi pr rc [fl lk] sn rl cl sd]; simpl in *; subst.
  unfold tmpFileName in *.
  destruct mode; [done| |]; revert E; norm; rewrite Hc; intros [= <-]; simpl.
  - rewrite (Hp eq_refl), write_at_end.
    exists WriteOnly, (Z.of_nat (length c) + Z.of_nat (length data)).
    simpl. split_and!; [done|done| |by rewrite lookup_insert_eq].
    intros _. rewrite length_app. lia.
  - exists Append, (p + Z.of_nat (length data)).
    simpl. split_and!; [done|done|done|by rewrite lookup_insert_eq].
Qed.

Lemma run_chunks u path fs0 chunks s c :
  Live P u path fs0 s → Streaming P path c s →
  ∃ s', run P (ReadyRead <$> chunks) s = Some s'
        ∧ Live P u path fs0 s' ∧ Streaming P path (c ++ concat chunks) s'
        ∧ calls s' = calls s ∧ sent s' = sent s.
Proof.
  revert s c. induction chunks as [|data chunks IH]; intros s c HL HS;
    [rewrite fmap_nil|rewrite fmap_cons]; simpl.
  - exists s. rewrite app_nil_r. done.
  - destruct (readyRead_appends _ _ _ _ _ data HL HS) as (s1 & -> & HL1 & HS1 & Hc1 & Hs1).
    destruct (IH s1 _ HL1 HS1) as (s' & E & HL' & HS' & Hc' & Hs').
    exists s'. rewrite (app_assoc c). split_and!; [done|done|done|congruence|congruence].
Qed.

Lemma StartDownload_streaming u path finish progress useResume fs0 :
  tmpFileName P path ∉ locked fs0 →
  ∃ s0, StartDownload P u path finish progress useResume fs0 = Some s0
        ∧ Live P u path fs0 s0
        ∧ Streaming P path
            (if useResume then default [] (files fs0 !! tmpFileName P path) else []) s0
        ∧ calls s0 = [].
Proof.
  intros Hl.
  destruct (StartDownload_opened u path finish progress useResume fs0 Hl)
    as (s0 & E & HL & _ & Hcl & _ & _ & Hf).
  exists s0. split_and!; try done.
  revert E Hf. destruct fs0 as [fl lk]. unfold tmpFileName in *. simpl in Hl.
  norm. unfold QFile_open. norm. rewrite decide_False by done.
  destruct useResume; norm; intros [= <-]; simpl; intros Hf.
  - exists Append, (Z.of_nat (length (default [] (fl !! (path +:+ DOWNLOADING_FILE_EXTENSION P))))).
    split_and!; done.
  - exists WriteOnly, 0. split_and!; done.
Qed.

(** Without a retry the download is complete: the destination
    receives the bytes the temporary file began with, followed by the chunks
    in the order they arrived. *)
Lemma download_without_retry u path finish progress useResume fs0 chunks :
  DOWNLOADING_FILE_EXTENSION P ≠ "" →
  tmpFileName P path ∉ locked fs0 → path ∉ locked fs0 →
  ∃ s, session P u path finish progress useResume fs0
         ((ReadyRead <$> chunks) ++ [Finished NoError None]) = Some s
       ∧ calls s = (if finish then [Finish u EHttpDownloadOk] else [])
       ∧ files (disk s) !! path
         = Some ((if useResume
                  then default [] (files fs0 !! tmpFileName P path) else [])
                 ++ concat chunks)
       ∧ files (disk s) !! tmpFileName P path = None.
Proof.
  intros Hext Hl Hp. unfold session.
  destruct (StartDownload_streaming u path finish progress useResume fs0 Hl)
    as (s0 & E0 & HL0 & HS0 & Hc0).
  destruct (StartDownload_inv u path finish progress useResume fs0)
    as (s0' & E0' & HI0).
  rewrite E0 in E0'. injection E0' as <-. rewrite E0, run_app.
  destruct (run_chunks _ _ _ chunks _ _ HL0 HS0) as (s1 & E1 & HL1 & HS1 & Hc1 & _).
  destruct (run_inv u path finish fs0 (ReadyRead <$> chunks) s0 HI0)
    as (s1' & E1' & [Hlk1 Hf1 _]).
  rewrite E1 in E1'. injection E1' as <-. rewrite E1.
  destruct (finished_success _ _ _ _ Hext HL1)
    as (s' & c & E & Hc & _ & _ & _ & _ & _ & Hgone & _ & Hok & _).
  simpl. rewrite E. exists s'.
  destruct HS1 as (mode & p & _ & _ & _ & Hc').
  destruct Hok as [Hcl Hdst]; [by rewrite Hlk1|].
  split_and!; [done| |congruence|done].
  by rewrite Hcl, Hc1, Hc0, Hf1.
Qed.

(** After a retry the chunks are lost, whatever they are: the file stays
    closed and the disk is as the failed attempt left it. *)
Lemma retry_loses_chunks u path fs0 s netError red chunks :
  Live P u path fs0 s →
  netError ≠ 0 → netError ≤ UnknownNetworkError →
  m_retryCounter s < MAX_AUTOMATIC_RETRIES →
  ∃ s', run P (Finished netError red :: (ReadyRead <$> chunks)) s = Some s'
        ∧ disk s' = disk s ∧ is_Some (m_reply s').
Proof.
  intros HL Hne Hle Hlt. simpl.
  destruct (finished_retry _ _ _ _ netError red HL Hne Hle Hlt)
    as (s1 & -> & HL1 & Hd & _ & _ & _ & _ & _ & f & Hf & Hclosed).
  destruct HL1 as [[r Hr] _ _ _ _ _ _ _ _ _].
  exists s1. split_and!; [|done|by exists r].
  induction chunks as [|data chunks IH]; [done|].
  rewrite fmap_cons. simpl. by rewrite (readyRead_closed s1 f r data).
Qed.

(** * The claims *)

(** C1.  A transient failure followed by a successful transfer: the session
    writes "AB", the reply fails with a network-layer error, the retry asks
    for the bytes from offset 2 on and receives "CD", and the reply finishes
    cleanly.  The finish callback reports [EHttpDownloadOk], but the file
    published at the destination holds "AB" only: [OnHttpFinished] closed the
    temporary file before it retried and nothing opens it again, so the chunks
    of the second reply are not written. *)
Theorem C1_retry_drops_chunks :
  ∃ s, session omim "http://h/a" "a.mwm" true true false empty_disk
         [ReadyRead AB; Finished ConnectionRefusedError None;
          ReadyRead CD; Finished NoError None] = Some s
       ∧ calls s = [Finish "http://h/a" EHttpDownloadOk]
       ∧ url <$> sent s = ["http://h/a"; "http://h/a"]
       ∧ (sent s !! 1%nat ≫= λ req, rawHeaders req !! 1%nat)
         = Some ("Range", "bytes=2-")
       ∧ files (disk s) !! "a.mwm" = Some AB
       ∧ AB ≠ AB ++ CD.
Proof.
  eexists. split; [vm_compute; reflexivity|].
  split_and!; try (vm_compute; reflexivity). by vm_compute.
Qed.

(** C2.  A permanent failure after two bytes were written: the session
    reports [EHttpDownloadFileNotFound] and the temporary file is gone from
    the disk, although it was not empty.  [m_file->pos()] is read after
    [m_file->close()], which resets the position to 0. *)
Theorem C2_partial_file_removed :
  ∃ s1 s2,
    session omim "http://h/a" "a.mwm" true true false empty_disk
      [ReadyRead AB] = Some s1
    ∧ files (disk s1) !! "a.mwm.downloading" = Some AB
    ∧ session omim "http://h/a" "a.mwm" true true false empty_disk
        [ReadyRead AB; Finished ContentNotFoundError None] = Some s2
    ∧ calls s2 = [Finish "http://h/a" EHttpDownloadFileNotFound]
    ∧ files (disk s2) !! "a.mwm.downloading" = None.
Proof.
  eexists _, _. split; [vm_compute; reflexivity|].
  split; [vm_compute; reflexivity|].
  split; [vm_compute; reflexivity|].
  split; vm_compute; reflexivity.
Qed.

(** C3 (as amended).  The retry counter starts at 0.  Every event leaves it
    as it is, except a reply that finishes with a network-layer error while a
    request is in flight, which adds exactly one: also the error that
    exhausts the budget and ends the session.  The counter is never reset, it
    is at most [MAX_AUTOMATIC_RETRIES] while a request is in flight and never
    exceeds [MAX_AUTOMATIC_RETRIES + 1]. *)
Theorem C3_retry_counter u path finish progress useResume fs0 evs s :
  session P u path finish progress useResume fs0 evs = Some s →
  (evs = [] → m_retryCounter s = 0)
  ∧ 0 ≤ m_retryCounter s ≤ MAX_AUTOMATIC_RETRIES + 1
  ∧ (is_Some (m_reply s) → m_retryCounter s ≤ MAX_AUTOMATIC_RETRIES)
  ∧ ∀ ev, ∃ s', deliver P ev s = Some s'
      ∧ m_retryCounter s' = m_retryCounter s
          + (if bool_decide (is_Some (m_reply s)) && transient ev then 1 else 0).
Proof.
  intros E. pose proof (session_reaches _ _ _ _ _ _ _ _ E) as HI.
  split; [|split; [|split]].
  - intros ->. unfold session in E.
    destruct (decide (tmpFileName P path ∈ locked fs0)) as [Hl|Hl].
    + destruct (StartDownload_refused u path finish progress useResume fs0 Hl)
        as (s0 & E0 & _ & _ & _ & _ & _ & _ & Hc & _).
      rewrite E0 in E. simpl in E. congruence.
    + destruct (StartDownload_opened u path finish progress useResume fs0 Hl)
        as (s0 & E0 & _ & Hc & _).
      rewrite E0 in E. simpl in E. congruence.
  - destruct HI as [_ _ [HL | [HD | HA]]].
    + destruct HL. arith.
    + destruct HD. arith.
    + destruct HA. arith.
  - intros Hr. destruct (Inv_live _ _ _ _ _ HI Hr). arith.
  - intros ev. destruct (deliver_step _ _ _ _ ev _ HI) as (s' & E' & Hc & _).
    by exists s'.
Qed.

(** C4.  A redirect received by a session with a request in flight, whatever
    was streamed before: the current URL becomes the target (resolved against
    the current URL), the temporary file is reopened for writing and empty,
    the retry counter and the callbacks are untouched, and one request is
    issued on the new URL (without a Range header, the file being empty). *)
Theorem C4_redirect u path finish progress useResume fs0 evs s target :
  session P u path finish progress useResume fs0 evs = Some s →
  is_Some (m_reply s) →
  ∃ s', deliver P (Finished NoError (Some target)) s = Some s'
        ∧ m_currentUrl s' = resolved P (m_currentUrl s) target
        ∧ files (disk s') !! tmpFileName P path = Some []
        ∧ m_file s' = Some {| fileName := tmpFileName P path;
                              openMode := WriteOnly; pos := 0 |}
        ∧ m_retryCounter s' = m_retryCounter s
        ∧ calls s' = calls s
        ∧ is_Some (m_reply s')
        ∧ sent s' = sent s ++
            [{| url := resolved P (m_currentUrl s) target;
                rawHeaders := [("User-Agent", UserAgent P)] |}].
Proof.
  intros E Hr. pose proof (session_reaches _ _ _ _ _ _ _ _ E) as HI.
  pose proof (Inv_live _ _ _ _ _ HI Hr) as HL.
  destruct (finished_redirect _ _ _ _ target HL)
    as (s' & E' & HL' & _ & _ & Hf & Hm & Hcl & Hu & Hs & Hc).
  exists s'. split_and!; try done.
  - by rewrite Hf, lookup_insert_eq.
  - apply HL'.
Qed.

(** C5.  Destroying a session that has a request in flight sets the abort
    flag and runs the cleanup branch: no callback is invoked, the temporary
    file is removed, the reply is released, every other file is as it was
    when the session began, and nothing happens afterwards.  Moreover no slot
    invokes a callback or issues a request once the flag is set, in any
    state. *)
Theorem C5_abort u path finish progress useResume fs0 evs s :
  session P u path finish progress useResume fs0 evs = Some s →
  is_Some (m_reply s) →
  ∃ s' r, deliver P Destroy s = Some s'
        ∧ m_httpRequestAborted s' = true
        ∧ calls s' = calls s ∧ finishes (calls s') = []
        ∧ sent s' = sent s
        ∧ m_reply s = Some r ∧ released s' = released s ++ [r]
        ∧ m_reply s' = None ∧ m_file s' = None
        ∧ files (disk s') !! tmpFileName P path = None
        ∧ (∀ p, p ≠ tmpFileName P path → files (disk s') !! p = files fs0 !! p)
        ∧ (∀ evs', run P evs' s' = Some s')
        ∧ (∀ t ev t', m_httpRequestAborted t = true →
             slot P ev t = Some (tt, t') →
             calls t' = calls t ∧ sent t' = sent t
             ∧ m_httpRequestAborted t' = true).
Proof.
  intros E Hr. pose proof (session_reaches _ _ _ _ _ _ _ _ E) as HI.
  pose proof (Inv_live _ _ _ _ _ HI Hr) as HL.
  destruct (destroy_live _ _ _ _ HL)
    as (s' & r & E' & Hrr & HA & _ & _ & Hf & Hcl & Hs & Hrl & _ & Hr' & Hm & Hab & _).
  exists s', r. split_and!; try done.
  - rewrite Hcl. apply HL.
  - apply HA.
  - apply HA.
  - intros evs'. by apply run_no_reply.
  - intros t ev t'. apply aborted_slot_silent.
Qed.

(** C6.  A clean finish of a session with a request in flight.  The file at
    the destination is removed if it can be, and the temporary file is renamed
    to the destination; the rename succeeds exactly when the destination is
    not locked.  If it succeeds the result is [EHttpDownloadOk] and the
    destination holds the bytes of the temporary file; if it fails the result
    is [EHttpDownloadFileIsLocked] and the destination is exactly as it was.
    In both cases the temporary file is gone and no other file is touched. *)
Theorem C6_finalization u path finish progress useResume fs0 evs s :
  DOWNLOADING_FILE_EXTENSION P ≠ "" →
  session P u path finish progress useResume fs0 evs = Some s →
  is_Some (m_reply s) →
  ∃ s' c, deliver P (Finished NoError None) s = Some s'
        ∧ files (disk s) !! tmpFileName P path = Some c
        ∧ fst (fs_rename (tmpFileName P path) path (snd (fs_remove path (disk s))))
          = bool_decide (path ∉ locked fs0)
        ∧ files (disk s') !! tmpFileName P path = None
        ∧ m_reply s' = None ∧ selfDeleted s' = true
        ∧ (∀ p, p ≠ tmpFileName P path → p ≠ path →
             files (disk s') !! p = files fs0 !! p)
        ∧ (path ∉ locked fs0 →
             calls s' = calls s ++ (if finish then [Finish u EHttpDownloadOk] else [])
             ∧ files (disk s') !! path = Some c)
        ∧ (path ∈ locked fs0 →
             calls s' = calls s ++
               (if finish then [Finish u EHttpDownloadFileIsLocked] else [])
             ∧ files (disk s') !! path = files fs0 !! path).
Proof.
  intros Hext E Hr. pose proof (session_reaches _ _ _ _ _ _ _ _ E) as HI.
  pose proof (Inv_live _ _ _ _ _ HI Hr) as HL.
  pose proof (tmp_ne_path _ path Hext) as Htmp.
  destruct (finished_success _ _ _ _ Hext HL)
    as (s' & c & E' & Hc & HD & _ & _ & _ & _ & Hgone & Hoth & Hok & Hko).
  destruct HI as [Hlk Hfin _]. rewrite Hlk, Hfin in *.
  exists s', c. split_and!; try done.
  - destruct HL as [_ _ Hw _ _ _ _ _ _ _]. rewrite Hlk in Hw.
    destruct (disk s) as [fl lk]; simpl in *. subst lk.
    destruct (decide (path ∈ locked fs0)) as [Hin|Hout].
    + rewrite bool_decide_false, fs_remove_locked by auto. simpl.
      by rewrite fs_rename_locked.
    + rewrite bool_decide_true, fs_remove_unlocked by done. simpl.
      rewrite (fs_rename_ok _ _ _ _ c); [done| |apply lookup_delete_eq|done|done].
      unfold tmpFileName in *. by rewrite lookup_delete_ne.
  - apply HD.
  - apply HD.
  - intros p Hp1 Hp2. rewrite Hoth by done. by apply HL.
  - intros Hin. destruct (Hko Hin) as [-> ->]. split; [done|].
    apply HL. unfold tmpFileName. done.
Qed.

(** C7.  A session created with a finish callback and not aborted.  As long
    as a request is in flight the callback has not been invoked, whatever
    retries and redirects took place; once the session has ended it has been
    invoked exactly once, with the session's URL and one of the four results.
    The callback is invoked when the session ends, and only then: while a
    request is in flight, body data, a progress report, a redirection and an
    error that is retried leave the session in flight without an invocation;
    an error that is not retried ends it with the one invocation
    [EHttpDownloadFileNotFound] or [EHttpDownloadFailed]; a clean finish ends
    it with the one invocation [EHttpDownloadOk] or
    [EHttpDownloadFileIsLocked].  After the end no event changes anything. *)
Theorem C7_single_finish u path progress useResume fs0 evs s :
  session P u path true progress useResume fs0 evs = Some s →
  m_httpRequestAborted s = false →
  ((is_Some (m_reply s) ∧ selfDeleted s = false ∧ finishes (calls s) = [])
   ∨ (m_reply s = None ∧ selfDeleted s = true
      ∧ ∃ result, finishes (calls s) = [(u, result)]
          ∧ result ∈ [EHttpDownloadOk; EHttpDownloadFailed;
                      EHttpDownloadFileNotFound; EHttpDownloadFileIsLocked]))
  ∧ (is_Some (m_reply s) →
       (∀ ev, keeps_going ev = true
              ∨ (transient ev = true ∧ m_retryCounter s < MAX_AUTOMATIC_RETRIES) →
          ∃ s', deliver P ev s = Some s'
                ∧ is_Some (m_reply s') ∧ m_httpRequestAborted s' = false
                ∧ finishes (calls s') = [])
       ∧ (∀ netError red,
            netError ≠ NoError →
            UnknownNetworkError < netError
            ∨ MAX_AUTOMATIC_RETRIES ≤ m_retryCounter s →
            ∃ s', deliver P (Finished netError red) s = Some s'
                  ∧ m_reply s' = None ∧ m_httpRequestAborted s' = false
                  ∧ finishes (calls s')
                    = [(u, if netError =? ContentNotFoundError
                           then EHttpDownloadFileNotFound
                           else EHttpDownloadFailed)])
       ∧ (DOWNLOADING_FILE_EXTENSION P ≠ "" →
            ∃ s', deliver P (Finished NoError None) s = Some s'
                  ∧ m_reply s' = None ∧ m_httpRequestAborted s' = false
                  ∧ finishes (calls s')
                    = [(u, if bool_decide (path ∈ locked fs0)
                           then EHttpDownloadFileIsLocked
                           else EHttpDownloadOk)]))
  ∧ (m_reply s = None → ∀ ev, deliver P ev s = Some s).
Proof.
  intros E Hab. pose proof (session_reaches _ _ _ _ _ _ _ _ E) as HI.
  split; [|split].
  - destruct HI as [_ _ [HL | [HD | HA]]].
    + left. split_and!; apply HL.
    + right. destruct HD as [? ? ? ? ? [result Hres]]. split_and!; try done.
      exists result. split; [done|].
      apply list_elem_of_In. destruct result; simpl; auto 6.
    + destruct HA. congruence.
  - intros Hr. pose proof (Inv_live _ _ _ _ _ HI Hr) as HL.
    destruct HI as [Hlk Hfin _].
    pose proof (live_silent _ _ _ _ _ HL) as Hsil.
    split; [|split].
    + intros ev [Hk | [Ht Hc]].
      * destruct ev as [data | bytesRead totalBytes | netError [target|] | ];
          simpl in Hk; try done.
        -- destruct (readyRead_live _ _ _ _ data HL) as (s' & E' & HL' & _).
           exists s'. split_and!; [done|apply HL'..].
        -- destruct (progress_live _ _ _ _ bytesRead totalBytes HL)
             as (s' & E' & HL' & _).
           exists s'. split_and!; [done|apply HL'..].
        -- apply Z.eqb_eq in Hk. subst netError.
           destruct (finished_redirect _ _ _ _ target HL) as (s' & E' & HL' & _).
           exists s'. split_and!; [done|apply HL'..].
      * destruct ev as [ | | netError red | ]; simpl in Ht; try done.
        apply andb_prop in Ht as [H1 H2].
        apply negb_true_iff, Z.eqb_neq in H1. apply Z.leb_le in H2.
        destruct (finished_retry _ _ _ _ netError red HL H1 H2 Hc)
          as (s' & E' & HL' & _).
        exists s'. split_and!; [done|apply HL'..].
    + intros netError red Hne Hor.
      destruct (finished_fail _ _ _ _ netError red HL Hne Hor)
        as (s' & E' & HD & _ & _ & _ & Hcl & _).
      exists s'. split_and!; [done|apply HD|apply HD|].
      rewrite Hcl, Hfin, finishes_app, Hsil. reflexivity.
    + intros Hext.
      destruct (finished_success _ _ _ _ Hext HL)
        as (s' & c & E' & _ & HD & _ & _ & _ & _ & _ & _ & Hok & Hko).
      rewrite Hlk in Hok, Hko.
      exists s'. split_and!; [done|apply HD|apply HD|].
      destruct (decide (path ∈ locked fs0)) as [Hin|Hout].
      * rewrite bool_decide_true by done. destruct (Hko Hin) as [Hcl _].
        rewrite Hcl, Hfin, finishes_app, Hsil. reflexivity.
      * rewrite bool_decide_false by done. destruct (Hok Hout) as [Hcl _].
        rewrite Hcl, Hfin, finishes_app, Hsil. reflexivity.
  - intros Hnone ev. by apply deliver_no_reply.
Qed.

(** C8.  The Range header of a request is "bytes=S-" when the size S of the
    temporary file is positive, and is absent otherwise.  The first request
    of a session is the one built from the temporary file as the constructor
    opened it (with [useResume] its size is the size found on the disk), and
    every event either issues no request or exactly one, built from the
    current URL and the size of the temporary file at that moment. *)
Theorem C8_range_header u path finish progress useResume fs0 evs s ev :
  session P u path finish progress useResume fs0 evs = Some s →
  (∀ size, range_header size
           = if 0 <? size then [("Range", "bytes=" +:+ pretty size +:+ "-")] else [])
  ∧ (evs = [] → tmpFileName P path ∉ locked fs0 →
       sent s = [request_at P path s]
       ∧ m_currentUrl s = u
       ∧ fs_size (tmpFileName P path) (disk s)
         = if useResume then fs_size (tmpFileName P path) fs0 else 0)
  ∧ (evs = [] → tmpFileName P path ∉ locked fs0 → useResume = true →
       0 < fs_size (tmpFileName P path) fs0 →
       sent s = [{| url := u;
                    rawHeaders :=
                      [("User-Agent", UserAgent P);
                       ("Range", "bytes=" +:+ pretty (fs_size (tmpFileName P path) fs0)
                                 +:+ "-")] |}])
  ∧ ∃ s', deliver P ev s = Some s'
          ∧ (sent s' = sent s ∨ sent s' = sent s ++ [request_at P path s']).
Proof.
  intros E. pose proof (session_reaches _ _ _ _ _ _ _ _ E) as HI.
  assert (evs = [] → tmpFileName P path ∉ locked fs0 →
          sent s = [request_at P path s] ∧ m_currentUrl s = u
          ∧ fs_size (tmpFileName P path) (disk s)
            = if useResume then fs_size (tmpFileName P path) fs0 else 0) as Hfirst.
  { intros -> Hl. unfold session in E.
    destruct (StartDownload_opened u path finish progress useResume fs0 Hl)
      as (s0 & E0 & _ & _ & _ & Hu & Hs & Hf).
    rewrite E0 in E. simpl in E. injection E as <-.
    split_and!; [done|done|]. unfold fs_size. rewrite Hf.
    destruct useResume; [|done]. by destruct (files fs0 !! tmpFileName P path). }
  split_and!.
  - done.
  - done.
  - intros Hevs Hl -> Hpos. destruct (Hfirst Hevs Hl) as (-> & Hu & Hsz).
    unfold request_at. rewrite Hu, Hsz. unfold range_header.
    by destruct (Z.ltb_spec 0 (fs_size (tmpFileName P path) fs0)); [|lia].
  - destruct (deliver_step _ _ _ _ ev _ HI) as (s' & E' & _ & Hs). by exists s'.
Qed.

(** C9.  When the temporary file cannot be opened the constructor invokes the
    finish callback once, with [EHttpDownloadFailed], issues no request and
    asks for its own deletion; no later event changes anything.  When the
    file can be opened the constructor invokes no callback and issues the
    first request. *)
Theorem C9_open_failure u path finish progress useResume fs0 :
  ∃ s0, StartDownload P u path finish progress useResume fs0 = Some s0
    ∧ (tmpFileName P path ∈ locked fs0 →
         calls s0 = (if finish then [Finish u EHttpDownloadFailed] else [])
         ∧ sent s0 = [] ∧ m_reply s0 = None ∧ m_file s0 = None
         ∧ selfDeleted s0 = true ∧ m_retryCounter s0 = 0 ∧ disk s0 = fs0
         ∧ ∀ evs, session P u path finish progress useResume fs0 evs = Some s0)
    ∧ (tmpFileName P path ∉ locked fs0 →
         calls s0 = [] ∧ length (sent s0) = 1%nat ∧ is_Some (m_reply s0)
         ∧ selfDeleted s0 = false).
Proof.
  destruct (decide (tmpFileName P path ∈ locked fs0)) as [Hl|Hl].
  - destruct (StartDownload_refused u path finish progress useResume fs0 Hl)
      as (s0 & E0 & Hcl & Hs & Hr & Hm & Hab & Hd & Hc & Hdk).
    exists s0. split_and!; [done| |done].
    intros _. split_and!; try done.
    intros evs. unfold session. rewrite E0. by apply run_no_reply.
  - destruct (StartDownload_opened u path finish progress useResume fs0 Hl)
      as (s0 & E0 & HL & _ & Hcl & _ & Hs & _).
    exists s0. split_and!; [done|done|].
    intros _. split_and!; [done|by rewrite Hs|apply HL|apply HL].
Qed.

(** C10.  A session whose temporary file could be opened and that receives
    only body data, progress reports and redirections, however many: it
    still has a request in flight, it has not asked for its deletion, the
    finish callback has not been invoked, the retry counter is 0, and it has
    issued one request more than it received redirections. *)
Theorem C10_redirects_unbounded u path finish progress useResume fs0 evs :
  tmpFileName P path ∉ locked fs0 →
  forallb keeps_going evs = true →
  ∃ s, session P u path finish progress useResume fs0 evs = Some s
       ∧ is_Some (m_reply s) ∧ selfDeleted s = false
       ∧ finishes (calls s) = []
       ∧ m_retryCounter s = 0
       ∧ length (sent s) = S (length (List.filter is_redirect evs)).
Proof.
  intros Hl Hall. unfold session.
  destruct (StartDownload_opened u path finish progress useResume fs0 Hl)
    as (s0 & -> & HL & Hc & _ & _ & Hs & _).
  destruct (run_keeps_going _ _ _ evs s0 HL Hall) as (s & E & HL' & Hc' & Hs').
  exists s. split_and!; [done|apply HL'|apply HL'|apply HL'|congruence|].
  rewrite Hs', Hs. done.
Qed.

End Facts.

(** * Sample sessions *)

(** C3 as stated fails: three network-layer errors in a row take the counter
    to 3, above [MAX_AUTOMATIC_RETRIES]; the third error increments it
    although no retry follows (three requests were issued in all). *)
Lemma C3_counter_reaches_three :
  ∃ s, session omim "http://h/a" "a.mwm" true true false empty_disk
         [Finished ConnectionRefusedError None; Finished TimeoutError None;
          Finished ConnectionRefusedError None] = Some s
       ∧ m_retryCounter s = 3
       ∧ ¬ (m_retryCounter s ≤ MAX_AUTOMATIC_RETRIES)
       ∧ length (sent s) = 3%nat
       ∧ calls s = [Finish "http://h/a" EHttpDownloadFailed].
Proof.
  eexists. split; [vm_compute; reflexivity|].
  split_and!; try (vm_compute; reflexivity). by vm_compute.
Qed.

(** One network-layer error, then a redirect: the counter is 1 and stays 1. *)
Lemma C3_retry_counter_witness :
  ∃ s, session omim "http://h/a" "a.mwm" true true false empty_disk
         [Finished ConnectionRefusedError None] = Some s
       ∧ m_retryCounter s = 1
       ∧ (is_Some (m_reply s) → m_retryCounter s ≤ MAX_AUTOMATIC_RETRIES)
       ∧ ∃ s', deliver omim (Finished NoError (Some "http://x/b")) s = Some s'
               ∧ m_retryCounter s' = m_retryCounter s + 0.
Proof.
  eexists. split; [vm_compute; reflexivity|]. split; [vm_compute; reflexivity|].
  match goal with |- context [m_retryCounter ?st ≤ _] =>
    destruct (C3_retry_counter omim "http://h/a" "a.mwm" true true false empty_disk
                [Finished ConnectionRefusedError None] st
                ltac:(vm_compute; reflexivity)) as (_ & _ & Hle & Hstep)
  end.
  split; [exact Hle|]. apply (Hstep (Finished NoError (Some "http://x/b"))).
Defined.

(** A redirect after two bytes were streamed. *)
Lemma C4_redirect_witness :
  ∃ s, session omim "http://h/a" "a.mwm" true true false empty_disk
         [ReadyRead AB] = Some s
       ∧ is_Some (m_reply s)
       ∧ files (disk s) !! "a.mwm.downloading" = Some AB
       ∧ ∃ s', deliver omim (Finished NoError (Some "http://x/b")) s = Some s'
               ∧ m_currentUrl s' = "http://x/b"
               ∧ files (disk s') !! "a.mwm.downloading" = Some []
               ∧ m_retryCounter s' = m_retryCounter s
               ∧ calls s' = calls s.
Proof.
  eexists. split; [vm_compute; reflexivity|].
  split; [by eexists|]. split; [vm_compute; reflexivity|].
  match goal with |- context [deliver _ _ ?st] =>
    destruct (C4_redirect omim "http://h/a" "a.mwm" true true false empty_disk
                [ReadyRead AB] st "http://x/b"
                ltac:(vm_compute; reflexivity) ltac:(by eexists))
      as (s' & E & Hu & Hf & _ & Hc & Hcl & _)
  end.
  exists s'. split_and!; [exact E|exact Hu|exact Hf|exact Hc|exact Hcl].
Defined.

(** A session destroyed after two bytes were streamed. *)
Lemma C5_abort_witness :
  ∃ s, session omim "http://h/a" "a.mwm" true true false empty_disk
         [ReadyRead AB; DownloadProgress 2 4] = Some s
       ∧ is_Some (m_reply s)
       ∧ files (disk s) !! "a.mwm.downloading" = Some AB
       ∧ ∃ s', deliver omim Destroy s = Some s'
               ∧ m_httpRequestAborted s' = true
               ∧ calls s' = calls s
               ∧ finishes (calls s') = []
               ∧ files (disk s') !! "a.mwm.downloading" = None
               ∧ files (disk s') !! "a.mwm" = None.
Proof.
  eexists. split; [vm_compute; reflexivity|].
  split; [by eexists|]. split; [vm_compute; reflexivity|].
  match goal with |- context [deliver _ _ ?st] =>
    destruct (C5_abort omim "http://h/a" "a.mwm" true true false empty_disk
                [ReadyRead AB; DownloadProgress 2 4] st
                ltac:(vm_compute; reflexivity) ltac:(by eexists))
      as (s' & r & E & Hab & Hcl & Hfin & _ & _ & _ & _ & _ & Hgone & Hoth & _)
  end.
  exists s'. split_and!; [exact E|exact Hab|exact Hcl|exact Hfin|exact Hgone|].
  rewrite (Hoth "a.mwm"); [reflexivity|discriminate].
Defined.

(** A clean finish while the destination is locked by another process. *)
Lemma C6_finalization_witness :
  ∃ s, DOWNLOADING_FILE_EXTENSION omim ≠ ""
       ∧ session omim "http://h/a" "a.mwm" true true false locked_disk
           [ReadyRead AB] = Some s
       ∧ is_Some (m_reply s)
       ∧ ∃ s', deliver omim (Finished NoError None) s = Some s'
               ∧ calls s' = [Finish "http://h/a" EHttpDownloadFileIsLocked]
               ∧ files (disk s') !! "a.mwm.downloading" = None
               ∧ files (disk s') !! "a.mwm" = Some (list_byte_of_string "old").
Proof.
  eexists. split; [discriminate|]. split; [vm_compute; reflexivity|].
  split; [by eexists|].
  match goal with |- context [deliver _ _ ?st] =>
    destruct (C6_finalization omim "http://h/a" "a.mwm" true true false locked_disk
                [ReadyRead AB] st
                ltac:(discriminate) ltac:(vm_compute; reflexivity) ltac:(by eexists))
      as (s' & c & E & _ & _ & Hgone & _ & _ & _ & _ & Hko)
  end.
  destruct Hko as [Hcl Hdst]; [apply (bool_decide_unpack _); vm_compute; exact I|].
  exists s'. split_and!; [exact E|exact Hcl|exact Hgone|].
  rewrite Hdst. vm_compute. reflexivity.
Defined.

(** The same finish on a disk where the destination is free. *)
Example finalization_replaces_destination :
  ∃ s, session omim "http://h/a" "a.mwm" true true false
         {| files := {[ "a.mwm" := list_byte_of_string "old" ]}; locked := ∅ |}
         [ReadyRead AB; Finished NoError None] = Some s
       ∧ calls s = [Finish "http://h/a" EHttpDownloadOk]
       ∧ files (disk s) !! "a.mwm.downloading" = None
       ∧ files (disk s) !! "a.mwm" = Some AB.
Proof.
  eexists. split; [vm_compute; reflexivity|].
  split_and!; vm_compute; reflexivity.
Qed.

(** Two retries, then a third timeout: the session was silent so far and ends
    with the one invocation [EHttpDownloadFailed]. *)
Lemma C7_single_finish_witness :
  ∃ s, session omim "http://h/a" "a.mwm" true true false empty_disk
         [ReadyRead AB; Finished TimeoutError None; Finished TimeoutError None]
       = Some s
       ∧ m_httpRequestAborted s = false
       ∧ is_Some (m_reply s)
       ∧ finishes (calls s) = []
       ∧ ∃ s', deliver omim (Finished TimeoutError None) s = Some s'
               ∧ m_reply s' = None
               ∧ finishes (calls s') = [("http://h/a", EHttpDownloadFailed)]
               ∧ ∀ ev, deliver omim ev s' = Some s'.
Proof.
  eexists. split; [vm_compute; reflexivity|]. split; [reflexivity|].
  split; [by eexists|]. split; [vm_compute; reflexivity|].
  match goal with |- context [deliver _ _ ?st] =>
    destruct (C7_single_finish omim "http://h/a" "a.mwm" true false empty_disk
                [ReadyRead AB; Finished TimeoutError None; Finished TimeoutError None]
                st ltac:(vm_compute; reflexivity) ltac:(reflexivity))
      as (_ & Hlive & _)
  end.
  destruct Hlive as (_ & Hfail & _); [by eexists|].
  destruct (Hfail TimeoutError None) as (s' & E & Hr & _ & Hf);
    [vm_compute; discriminate | right; vm_compute; discriminate |].
  exists s'. split_and!; [exact E|exact Hr|exact Hf|].
  intros ev. destruct s'; simpl in Hr; subst. by destruct ev.
Defined.

(** A resumed session that finds twelve bytes on the disk. *)
Lemma C8_range_header_witness :
  ∃ s, session omim "http://h/a" "a.mwm" true true true partial_disk [] = Some s
       ∧ sent s = [{| url := "http://h/a";
                      rawHeaders := [("User-Agent", UserAgent omim);
                                     ("Range", "bytes=12-")] |}]
       ∧ ∃ s', deliver omim (Finished TimeoutError None) s = Some s'
               ∧ (sent s' = sent s ∨ sent s' = sent s ++ [request_at omim "a.mwm" s']).
Proof.
  eexists. split; [vm_compute; reflexivity|].
  match goal with |- context [deliver _ _ ?st] =>
    destruct (C8_range_header omim "http://h/a" "a.mwm" true true true partial_disk
                [] st (Finished TimeoutError None)
                ltac:(vm_compute; reflexivity)) as (_ & _ & Hfirst & Hstep)
  end.
  split; [|exact Hstep].
  rewrite Hfirst; [vm_compute; reflexivity|reflexivity| |reflexivity|vm_compute; reflexivity].
  apply not_elem_of_empty.
Defined.

(** A session whose temporary file cannot be opened. *)
Lemma C9_open_failure_witness :
  ∃ s0, StartDownload omim "http://h/a" "a.mwm" true true false readonly_disk = Some s0
        ∧ tmpFileName omim "a.mwm" ∈ locked readonly_disk
        ∧ calls s0 = [Finish "http://h/a" EHttpDownloadFailed]
        ∧ sent s0 = []
        ∧ ∀ evs, session omim "http://h/a" "a.mwm" true true false readonly_disk evs
                 = Some s0.
Proof.
  destruct (C9_open_failure omim "http://h/a" "a.mwm" true true false readonly_disk)
    as (s0 & E & Hfail & _).
  assert (tmpFileName omim "a.mwm" ∈ locked readonly_disk) as Hl
    by (apply (bool_decide_unpack _); vm_compute; exact I).
  destruct (Hfail Hl) as (Hcl & Hs & _ & _ & _ & _ & _ & Hevs).
  exists s0. split_and!; [exact E|exact Hl|exact Hcl|exact Hs|exact Hevs].
Defined.

(** Three redirections with body data in between. *)
Lemma C10_redirects_unbounded_witness :
  (tmpFileName omim "a.mwm" ∉ locked empty_disk)
  ∧ forallb keeps_going
      [Finished NoError (Some "http://x/1"); ReadyRead AB;
       Finished NoError (Some "http://x/2"); DownloadProgress 0 4;
       Finished NoError (Some "http://x/3")] = true
  ∧ ∃ s, session omim "http://h/a" "a.mwm" true true false empty_disk
           [Finished NoError (Some "http://x/1"); ReadyRead AB;
            Finished NoError (Some "http://x/2"); DownloadProgress 0 4;
            Finished NoError (Some "http://x/3")] = Some s
         ∧ is_Some (m_reply s) ∧ selfDeleted s = false
         ∧ finishes (calls s) = []
         ∧ m_retryCounter s = 0
         ∧ length (sent s) = 4%nat.
Proof.
  split; [apply not_elem_of_empty|]. split; [reflexivity|].
  apply (C10_redirects_unbounded omim "http://h/a" "a.mwm" true true false empty_disk
           [Finished NoError (Some "http://x/1"); ReadyRead AB;
            Finished NoError (Some "http://x/2"); DownloadProgress 0 4;
            Finished NoError (Some "http://x/3")]);
    [apply not_elem_of_empty | reflexivity].
Defined.

(** * Further properties *)

Section More.
Context (P : Platform).

(** What a slot does to the reply handles. *)
Lemma slot_handles (s s' : State) (ev : Event) (r : nat) :
  m_reply s = Some r →
  slot P ev s = Some (tt, s') →
  (m_reply s' = Some r ∧ released s' = released s ∧ sent s' = sent s)
  ∨ (m_reply s' = None ∧ released s' = released s ++ [r] ∧ sent s' = sent s)
  ∨ (m_reply s' = Some (length (sent s)) ∧ released s' = released s ++ [r]
     ∧ length (sent s') = S (length (sent s))).
Proof.
  destruct s as [on cu mr mf ab fi pr rc dk sn rl cl sd]; simpl; intros ->.
  destruct ev as [data | bytesRead totalBytes | netError red | ].
  - destruct mf as [[fn [] ps]|]; norm; intros [= <-]; simpl; auto.
  - destruct ab, pr; norm; intros [= <-]; simpl; auto.
  - destruct mf as [[fn om ps]|]; [|by destruct ab].
    destruct ab; norm.
    + destruct om; norm; destruct (QFile_remove _ dk) as [[b f'] dk']; norm;
        intros [= <-]; simpl; auto.
    + destruct (netError =? 0) eqn:E0; norm.
      * destruct red as [target|]; norm.
        -- destruct om; norm; destruct (QFile_open _ _ dk) as [[b f'] dk']; norm;
             intros [= <-]; simpl; right; right;
             (split_and!; [reflexivity|reflexivity|]); rewrite length_app; simpl; lia.
        -- destruct om; norm;
             destruct (fs_remove _ dk) as [b1 dk1]; norm;
             destruct (QFile_rename _ _ dk1) as [[ok f'] dk2]; norm;
             (destruct ok; norm;
              [|destruct (QFile_remove f' dk2) as [[b3 f3] dk3]; norm]);
             destruct fi; norm; intros [= <-]; simpl; auto.
      * destruct (netError <=? UnknownNetworkError); norm;
          [destruct (rc + 1 <=? 2); norm|].
        -- destruct om; norm; intros [= <-]; simpl; right; right;
             (split_and!; [reflexivity|reflexivity|]); rewrite length_app; simpl; lia.
        -- destruct om; norm; rewrite ?Z.eqb_refl; norm;
             try destruct (ps =? 0); norm;
             try (destruct (QFile_remove _ dk) as [[b3 f3] dk3]; norm);
             destruct fi; norm; intros [= <-]; simpl; auto.
        -- destruct om; norm; rewrite ?Z.eqb_refl; norm;
             try destruct (ps =? 0); norm;
             try (destruct (QFile_remove _ dk) as [[b3 f3] dk3]; norm);
             destruct fi; norm; intros [= <-]; simpl; auto.
  - destruct mf as [[fn om ps]|]; [|done].
    destruct om; norm; destruct (QFile_remove _ dk) as [[b f'] dk']; norm;
      intros [= <-]; simpl; auto.
Qed.

Lemma deliver_slot (ev : Event) (s s' : State) :
  is_Some (m_reply s) → deliver P ev s = Some s' → slot P ev s = Some (tt, s').
Proof.
  intros [r Hr]. unfold deliver. rewrite Hr.
  assert ((snd <$> slot P ev s) = Some s' → slot P ev s = Some (tt, s')) as H.
  { destruct (slot P ev s) as [[[] t]|]; simpl; [by intros [= ->]|done]. }
  by destruct ev.
Qed.

(** What a slot adds to the callbacks invoked. *)
Lemma slot_calls (s s' : State) (ev : Event) :
  slot P ev s = Some (tt, s') →
  calls s' = calls s
  ∨ (∃ bytesRead totalBytes,
       calls s' = calls s ++ [Progress (objectName s) bytesRead totalBytes]
       ∧ m_reply s' = m_reply s)
  ∨ (∃ result, calls s' = calls s ++ [Finish (objectName s) result]
       ∧ m_reply s' = None).
Proof.
  destruct s as [on cu mr mf ab fi pr rc dk sn rl cl sd]; simpl.
  destruct ev as [data | bytesRead totalBytes | netError red | ].
  - destruct mf as [[fn [] ps]|], mr as [r|]; norm; intros [= <-]; simpl; auto.
  - destruct ab, pr; norm; intros [= <-]; simpl; eauto 10.
  - destruct mf as [[fn om ps]|]; [|by destruct ab].
    destruct mr as [r|];
      [|destruct ab, om; norm;
        try (destruct (QFile_remove _ dk) as [[? ?] ?]; norm); done].
    destruct ab; norm.
    + destruct om; norm; destruct (QFile_remove _ dk) as [[b f'] dk']; norm;
        intros [= <-]; simpl; auto.
    + destruct (netError =? 0) eqn:E0; norm.
      * destruct red as [target|]; norm.
        -- destruct om; norm; destruct (QFile_open _ _ dk) as [[b f'] dk']; norm;
             intros [= <-]; simpl; auto.
        -- destruct om; norm;
             destruct (fs_remove _ dk) as [b1 dk1]; norm;
             destruct (QFile_rename _ _ dk1) as [[ok f'] dk2]; norm;
             (destruct ok; norm;
              [|destruct (QFile_remove f' dk2) as [[b3 f3] dk3]; norm]);
             destruct fi; norm; intros [= <-]; simpl; eauto 10.
      * destruct (netError <=? UnknownNetworkError); norm;
          [destruct (rc + 1 <=? 2); norm|].
        -- destruct om; norm; intros [= <-]; simpl; auto.
        -- destruct om; norm; rewrite ?Z.eqb_refl; norm;
             try destruct (ps =? 0); norm;
             try (destruct (QFile_remove _ dk) as [[b3 f3] dk3]; norm);
             destruct fi; norm; intros [= <-]; simpl; eauto 10.
        -- destruct om; norm; rewrite ?Z.eqb_refl; norm;
             try destruct (ps =? 0); norm;
             try (destruct (QFile_remove _ dk) as [[b3 f3] dk3]; norm);
             destruct fi; norm; intros [= <-]; simpl; eauto 10.
  - destruct mr as [r|]; norm; [|intros [= <-]; by left].
    destruct mf as [[fn om ps]|]; [|done].
    destruct om; norm; destruct (QFile_remove _ dk) as [[b f'] dk']; norm;
      intros [= <-]; simpl; auto.
Qed.

(** ** Pointers *)

(** X2.  Every session runs: between two events [m_reply] and [m_file] are
    null together, and no slot dereferences a null pointer, whatever signal
    arrives while a reply is connected and whenever the object is destroyed
    or a late body or progress signal is delivered. *)
Theorem no_null_dereference u path finish progress useResume fs0 evs :
  ∃ s, session P u path finish progress useResume fs0 evs = Some s
       ∧ (m_reply s = None ↔ m_file s = None)
       ∧ ∀ ev, (is_Some (m_reply s) ∨ ∀ e r, ev ≠ Finished e r) →
               is_Some (slot P ev s).
Proof.
  destruct (session_inv P u path finish progress useResume fs0 evs) as (s & E & HI).
  exists s. split; [done|].
  assert (is_Some (m_reply s) ∧ is_Some (m_file s)
          ∨ m_reply s = None ∧ m_file s = None) as Hptr.
  { destruct HI as [_ _ [HL | [HD | HA]]].
    - left. destruct HL as [? (f & Hf & _) _ _ _ _ _ _ _ _]. by rewrite Hf.
    - right. by destruct HD.
    - right. by destruct HA. }
  split.
  - destruct Hptr as [[[r ->] [f ->]] | [-> ->]]; [split; discriminate|done].
  - intros ev Hev.
    destruct Hptr as [[Hr _] | [Hr Hf]].
    + destruct (deliver_inv P _ _ _ _ ev _ HI) as (s' & E' & _).
      rewrite (deliver_slot ev s s' Hr E'). by eexists.
    + destruct Hev as [Hr' | Hne]; [rewrite Hr in Hr'; by destruct Hr'|].
      clear E HI. destruct s as [on cu mr mf ab fi pr rc dk sn rl cl sd].
      simpl in Hr, Hf. subst.
      destruct ev as [data | bytesRead totalBytes | netError red | ];
        [by eexists|by eexists| |by eexists].
      by destruct (Hne netError red).
Qed.

(** ** Reply handles *)

Lemma StartDownload_handles u path finish progress useResume fs0 s0 :
  StartDownload P u path finish progress useResume fs0 = Some s0 →
  handles_in_order s0.
Proof.
  destruct fs0 as [fl lk]. norm. unfold QFile_open. norm.
  destruct (decide (_ ∈ lk)).
  - destruct finish; intros [= <-]; done.
  - destruct useResume; norm; intros [= <-]; done.
Qed.

Lemma deliver_handles u path finish fs0 ev s :
  Inv P u path finish fs0 s → handles_in_order s →
  ∃ s', deliver P ev s = Some s' ∧ Inv P u path finish fs0 s'
        ∧ handles_in_order s'.
Proof.
  intros HI HH. destruct (deliver_inv P _ _ _ _ ev _ HI) as (s' & E & HI').
  exists s'. split_and!; [done|done|].
  destruct (m_reply s) as [r|] eqn:Hr.
  - pose proof (deliver_slot ev s s' ltac:(by rewrite Hr) E) as Hs.
    unfold handles_in_order in *. rewrite Hr in HH. destruct HH as [Hlen Hrel].
    destruct (slot_handles s s' ev r Hr Hs)
      as [(-> & -> & ->) | [(-> & -> & ->) | (-> & -> & Hlen')]].
    + done.
    + by rewrite Hlen, Hrel, seq_S.
    + by rewrite Hlen', Hlen, Hrel, seq_S.
  - rewrite (deliver_no_reply P ev s Hr) in E. by injection E as <-.
Qed.

(** X9.  The reply in flight, if any, is the one of the last request, and
    every earlier reply has been released exactly once, in the order of the
    requests; when the session has ended every reply has been released. *)
Theorem replies_released_in_order u path finish progress useResume fs0 evs :
  ∃ s, session P u path finish progress useResume fs0 evs = Some s
       ∧ handles_in_order s ∧ NoDup (released s)
       ∧ (∀ r, m_reply s = Some r → r ∉ released s).
Proof.
  assert (∀ evs s, Inv P u path finish fs0 s → handles_in_order s →
          ∃ s', run P evs s = Some s' ∧ handles_in_order s') as Hrun.
  { clear evs. induction evs as [|ev evs IH]; intros s HI HH; simpl.
    - by exists s.
    - destruct (deliver_handles _ _ _ _ ev _ HI HH) as (s1 & -> & HI1 & HH1).
      by apply IH. }
  unfold session.
  destruct (StartDownload_inv P u path finish progress useResume fs0) as (s0 & E0 & HI0).
  rewrite E0.
  destruct (Hrun evs s0 HI0 (StartDownload_handles _ _ _ _ _ _ _ E0)) as (s & E & HH).
  exists s. split_and!; [done|done| |].
  - unfold handles_in_order in HH.
    destruct (m_reply s); [destruct HH as [_ ->]|rewrite HH]; apply NoDup_seq.
  - intros r Hr. unfold handles_in_order in HH. rewrite Hr in HH.
    destruct HH as [_ ->]. rewrite elem_of_seq. lia.
Qed.

(** ** Requests *)

Lemma deliver_potential u path finish fs0 ev s :
  Inv P u path finish fs0 s →
  ∃ s', deliver P ev s = Some s' ∧ Inv P u path finish fs0 s'
        ∧ Z.of_nat (length (sent s')) - Z.min (m_retryCounter s') MAX_AUTOMATIC_RETRIES
          ≤ Z.of_nat (length (sent s)) - Z.min (m_retryCounter s) MAX_AUTOMATIC_RETRIES
            + (if is_redirect ev then 1 else 0).
Proof.
  intros HI. destruct (deliver_inv P _ _ _ _ ev _ HI) as (s' & E & HI').
  exists s'. split_and!; [done|done|].
  destruct HI as [_ _ [HL | [HD | HA]]].
  - pose proof (live_counter _ _ _ _ _ HL) as Hcnt.
    destruct ev as [data | bytesRead totalBytes | netError red | ].
    + destruct (readyRead_live P _ _ _ _ data HL)
        as (s1 & E1 & _ & _ & _ & _ & Hs & Hc & _).
      rewrite E1 in E. injection E as <-. rewrite Hs, Hc. simpl. lia.
    + destruct (progress_live P _ _ _ _ bytesRead totalBytes HL)
        as (s1 & E1 & _ & _ & _ & _ & Hs & Hc & _).
      rewrite E1 in E. injection E as <-. rewrite Hs, Hc. simpl. lia.
    + destruct (decide (netError = 0)) as [->|Hne].
      * destruct red as [target|].
        -- destruct (finished_redirect P _ _ _ _ target HL)
             as (s1 & E1 & _ & _ & _ & _ & _ & _ & _ & Hs & Hc).
           unfold NoError in E1. rewrite E1 in E. injection E as <-.
           rewrite Hs, Hc, length_app. simpl. lia.
        -- destruct (finished_success_done P _ _ _ _ HL)
             as (s1 & E1 & _ & _ & _ & Hs & Hc).
           unfold NoError in E1. rewrite E1 in E. injection E as <-.
           rewrite Hs, Hc. simpl. lia.
      * assert ((if is_redirect (Finished netError red) then 1 else 0) = 0) as ->.
        { destruct red; simpl; [|done].
          by assert ((netError =? NoError) = false) as -> by (unfold NoError; lia). }
        destruct (decide (netError ≤ UnknownNetworkError
                          ∧ m_retryCounter s < MAX_AUTOMATIC_RETRIES)) as [[? ?]|Hno].
        -- destruct (finished_retry P _ _ _ _ netError red HL)
             as (s1 & E1 & _ & _ & _ & _ & Hs & Hc & _); [done..|].
           rewrite E1 in E. injection E as <-.
           rewrite Hs, Hc, length_app. simpl. arith.
        -- destruct (finished_fail P _ _ _ _ netError red HL)
             as (s1 & E1 & _ & _ & _ & _ & _ & Hs & Hc); [done|lia|].
           rewrite E1 in E. injection E as <-. rewrite Hs, Hc.
           destruct (netError <=? UnknownNetworkError); arith.
    + destruct (destroy_live P _ _ _ _ HL)
        as (s1 & r & E1 & _ & _ & _ & _ & _ & _ & Hs & _ & _ & _ & _ & _ & Hc).
      rewrite E1 in E. injection E as <-. rewrite Hs, Hc. simpl. lia.
  - rewrite (deliver_no_reply P ev s (done_reply _ _ _ HD)) in E.
    injection E as <-. destruct (is_redirect ev); lia.
  - rewrite (deliver_no_reply P ev s (aborted_reply _ _ _ _ HA)) in E.
    injection E as <-. destruct (is_redirect ev); lia.
Qed.

(** X5.  A session issues at most one request at its creation, one per
    redirection and [MAX_AUTOMATIC_RETRIES] retries in all: the retry budget
    is not renewed by a redirection. *)
Theorem requests_bounded u path finish progress useResume fs0 evs :
  ∃ s, session P u path finish progress useResume fs0 evs = Some s
       ∧ (length (sent s)
          ≤ 1 + Z.to_nat MAX_AUTOMATIC_RETRIES + length (List.filter is_redirect evs))%nat.
Proof.
  assert (∀ evs s, Inv P u path finish fs0 s →
          ∃ s', run P evs s = Some s'
                ∧ Z.of_nat (length (sent s'))
                    - Z.min (m_retryCounter s') MAX_AUTOMATIC_RETRIES
                  ≤ Z.of_nat (length (sent s))
                    - Z.min (m_retryCounter s) MAX_AUTOMATIC_RETRIES
                    + Z.of_nat (length (List.filter is_redirect evs))) as Hrun.
  { clear evs. induction evs as [|ev evs IH]; intros s HI; simpl.
    - exists s. split; [done|lia].
    - destruct (deliver_potential _ _ _ _ ev _ HI) as (s1 & -> & HI1 & Hstep).
      destruct (IH s1 HI1) as (s' & E & Hrest). exists s'. split; [done|].
      destruct (is_redirect ev); simpl; lia. }
  unfold session.
  destruct (StartDownload_inv P u path finish progress useResume fs0) as (s0 & E0 & HI0).
  rewrite E0. destruct (Hrun evs s0 HI0) as (s & E & Hle).
  exists s. split; [done|].
  assert (Z.of_nat (length (sent s0)) - Z.min (m_retryCounter s0) MAX_AUTOMATIC_RETRIES ≤ 1)
    as H0.
  { destruct (decide (tmpFileName P path ∈ locked fs0)) as [Hl|Hl].
    - destruct (StartDownload_refused P u path finish progress useResume fs0 Hl)
        as (s0' & E0' & _ & Hs & _ & _ & _ & _ & Hc & _).
      rewrite E0 in E0'. injection E0' as <-. rewrite Hs, Hc. simpl. arith.
    - destruct (StartDownload_opened P u path finish progress useResume fs0 Hl)
        as (s0' & E0' & _ & Hc & _ & _ & Hs & _).
      rewrite E0 in E0'. injection E0' as <-. rewrite Hs, Hc. simpl. arith. }
  unfold MAX_AUTOMATIC_RETRIES in *. lia.
Qed.

(** X10.  Every request a session issues carries the user agent as its first
    header, and after it either nothing or one Range header that starts at a
    positive offset: a request never asks for "bytes=0-". *)
Theorem requests_well_formed u path finish progress useResume fs0 evs :
  ∃ s, session P u path finish progress useResume fs0 evs = Some s
       ∧ Forall (headers_ok P) (sent s).
Proof.
  assert (∀ t, headers_ok P (request_at P path t)) as Hreq.
  { intros t. unfold headers_ok, request_at, range_header. simpl.
    destruct (Z.ltb_spec 0 (fs_size (tmpFileName P path) (disk t))); [right|left]; eauto. }
  assert (∀ evs s, Inv P u path finish fs0 s → Forall (headers_ok P) (sent s) →
          ∃ s', run P evs s = Some s' ∧ Forall (headers_ok P) (sent s')) as Hrun.
  { clear evs. induction evs as [|ev evs IH]; intros s HI HF; simpl.
    - by exists s.
    - destruct (deliver_inv P _ _ _ _ ev _ HI) as (s1 & E1 & HI1).
      destruct (deliver_step P _ _ _ _ ev _ HI) as (s1' & E1' & _ & Hs).
      rewrite E1 in E1'. injection E1' as <-. rewrite E1. apply IH; [done|].
      destruct Hs as [-> | ->]; [done|].
      apply Forall_app. split; [done|]. by apply Forall_singleton. }
  unfold session.
  destruct (StartDownload_inv P u path finish progress useResume fs0) as (s0 & E0 & HI0).
  rewrite E0. apply Hrun; [done|].
  destruct (decide (tmpFileName P path ∈ locked fs0)) as [Hl|Hl].
  - destruct (StartDownload_refused P u path finish progress useResume fs0 Hl)
      as (s0' & E0' & _ & Hs & _).
    rewrite E0 in E0'. injection E0' as <-. rewrite Hs. constructor.
  - destruct (StartDownload_opened P u path finish progress useResume fs0 Hl)
      as (s0' & E0' & _ & _ & _ & _ & Hs & _).
    rewrite E0 in E0'. injection E0' as <-. rewrite Hs. by apply Forall_singleton.
Qed.

(** ** Callbacks *)

(** X6.  The callbacks a session has invoked are progress reports followed by
    at most one result, all of them for the URL the session was created
    with, also after redirections; a result is there only if the session has
    ended, so nothing is reported after it. *)
Theorem callbacks_ordered u path finish progress useResume fs0 evs :
  ∃ s reports result,
    session P u path finish progress useResume fs0 evs = Some s
    ∧ calls s = reports ++ result
    ∧ Forall (progress_of u) reports
    ∧ (result = [] ∨ (∃ r, result = [Finish u r]) ∧ m_reply s = None).
Proof.
  assert (∀ evs s reports result, Inv P u path finish fs0 s →
          calls s = reports ++ result → Forall (progress_of u) reports →
          (result = [] ∨ (∃ r, result = [Finish u r]) ∧ m_reply s = None) →
          ∃ s' reports' result',
            run P evs s = Some s' ∧ calls s' = reports' ++ result'
            ∧ Forall (progress_of u) reports'
            ∧ (result' = [] ∨ (∃ r, result' = [Finish u r]) ∧ m_reply s' = None))
    as Hrun.
  { clear evs. induction evs as [|ev evs IH]; intros s reports result HI Hc HF Hres; simpl.
    - by exists s, reports, result.
    - destruct (deliver_inv P _ _ _ _ ev _ HI) as (s1 & E1 & HI1). rewrite E1.
      destruct (m_reply s) as [r|] eqn:Hr.
      + pose proof (Inv_live P _ _ _ _ _ HI ltac:(by rewrite Hr)) as HL.
        pose proof (live_name _ _ _ _ _ HL) as Hname.
        destruct Hres as [-> | [_ Hnone]]; [|congruence].
        rewrite app_nil_r in Hc.
        pose proof (deliver_slot ev s s1 ltac:(by rewrite Hr) E1) as Hs.
        destruct (slot_calls s s1 ev Hs)
          as [Hc1 | [(a & b & Hc1 & _) | (res & Hc1 & Hnone)]];
          rewrite ?Hname, ?Hc in Hc1.
        * apply (IH s1 reports []); [done|by rewrite app_nil_r|done|by left].
        * apply (IH s1 (reports ++ [Progress u a b]) []);
            [done|by rewrite app_nil_r| |by left].
          apply Forall_app. split; [done|]. apply Forall_singleton. by exists a, b.
        * apply (IH s1 reports [Finish u res]); [done|done|done|right; eauto].
      + rewrite (deliver_no_reply P ev s Hr) in E1. injection E1 as <-.
        apply (IH s reports result); [done|done|done|].
        destruct Hres as [?|[? _]]; [by left|by right]. }
  unfold session.
  destruct (StartDownload_inv P u path finish progress useResume fs0) as (s0 & E0 & HI0).
  rewrite E0.
  destruct (decide (tmpFileName P path ∈ locked fs0)) as [Hl|Hl].
  - destruct (StartDownload_refused P u path finish progress useResume fs0 Hl)
      as (s0' & E0' & Hc & _ & Hr & _).
    rewrite E0 in E0'. injection E0' as <-.
    destruct (Hrun evs s0 [] (calls s0) HI0) as (s & reports & result & E & H);
      [done|constructor| |by exists s, reports, result].
    rewrite Hc. destruct finish; [right; eauto|by left].
  - destruct (StartDownload_opened P u path finish progress useResume fs0 Hl)
      as (s0' & E0' & _ & _ & Hc & _).
    rewrite E0 in E0'. injection E0' as <-.
    destruct (Hrun evs s0 [] [] HI0) as (s & reports & result & E & H);
      [by rewrite Hc|constructor|by left|by exists s, reports, result].
Qed.

(** ** Retries and failures *)

(** X3.  A network-layer error received while the retry budget is not used up
    is answered by exactly one new request, for the same URL and with the
    Range header the size of the temporary file calls for; the disk and the
    callbacks are untouched and the session stays in flight. *)
Theorem retry_same_url u path finish progress useResume fs0 evs s netError red :
  session P u path finish progress useResume fs0 evs = Some s →
  is_Some (m_reply s) →
  netError ≠ NoError → netError ≤ UnknownNetworkError →
  m_retryCounter s < MAX_AUTOMATIC_RETRIES →
  ∃ s', deliver P (Finished netError red) s = Some s'
        ∧ sent s' = sent s ++
            [{| url := m_currentUrl s;
                rawHeaders := ("User-Agent", UserAgent P)
                  :: range_header (fs_size (tmpFileName P path) (disk s)) |}]
        ∧ m_currentUrl s' = m_currentUrl s
        ∧ disk s' = disk s ∧ calls s' = calls s
        ∧ is_Some (m_reply s') ∧ selfDeleted s' = false.
Proof.
  intros E Hr Hne Hle Hlt.
  pose proof (Inv_live P _ _ _ _ _ (session_reaches P _ _ _ _ _ _ _ _ E) Hr) as HL.
  destruct (finished_retry P _ _ _ _ netError red HL Hne Hle Hlt)
    as (s' & E' & HL' & Hd & _ & Hcl & Hs & _ & Hu & _).
  exists s'. split_and!; try done; apply HL'.
Qed.

(** X4.  An error that is not retried (an error above [UnknownNetworkError]
    whatever the counter, or a network-layer error once the budget is used
    up) ends the session with exactly one result, [EHttpDownloadFileNotFound]
    for [ContentNotFoundError] and [EHttpDownloadFailed] for every other
    error; no request is issued and no file but the temporary one is
    touched. *)
Theorem failure_result u path finish progress useResume fs0 evs s netError red :
  session P u path finish progress useResume fs0 evs = Some s →
  is_Some (m_reply s) →
  netError ≠ NoError →
  UnknownNetworkError < netError ∨ MAX_AUTOMATIC_RETRIES ≤ m_retryCounter s →
  ∃ s', deliver P (Finished netError red) s = Some s'
        ∧ calls s' = calls s ++
            (if finish
             then [Finish u (if netError =? ContentNotFoundError
                             then EHttpDownloadFileNotFound else EHttpDownloadFailed)]
             else [])
        ∧ sent s' = sent s
        ∧ m_reply s' = None ∧ m_file s' = None ∧ selfDeleted s' = true
        ∧ (∀ p, p ≠ tmpFileName P path → files (disk s') !! p = files (disk s) !! p).
Proof.
  intros E Hr Hne Hor. pose proof (session_reaches P _ _ _ _ _ _ _ _ E) as HI.
  pose proof (Inv_live P _ _ _ _ _ HI Hr) as HL.
  destruct (finished_fail P _ _ _ _ netError red HL Hne Hor)
    as (s' & E' & HD & _ & _ & Hf & Hcl & Hs & _).
  destruct HI as [_ Hfin _]. rewrite Hfin in Hcl.
  exists s'. split_and!; try done; try apply HD.
  intros p Hp. rewrite Hf. by apply lookup_delete_ne.
Qed.

(** ** The request in flight *)

Lemma deliver_current u path fs0 ev s :
  Live P u path fs0 s → current_request s →
  ∃ s', deliver P ev s = Some s'
        ∧ (is_Some (m_reply s') → current_request s').
Proof.
  intros HL (r & req & Hr & Hreq & Hlen & Hurl).
  assert (∀ s', sent s' = sent s → m_currentUrl s' = m_currentUrl s →
                deliver P ev s = Some s' → is_Some (m_reply s') → current_request s')
    as Hsame.
  { intros s' Hs Hu E [r' Hr'].
    destruct (slot_handles s s' ev r Hr (deliver_slot ev s s' ltac:(by rewrite Hr) E))
      as [(Hr1 & _) | [(Hr1 & _) | (_ & _ & Hlen')]].
    - exists r, req. by rewrite Hs, Hu.
    - congruence.
    - rewrite Hs in Hlen'. lia. }
  assert (∀ s' u', sent s' = sent s ++ [{| url := u'; rawHeaders := rawHeaders (request_at P path s') |}] →
                m_currentUrl s' = u' →
                deliver P ev s = Some s' → current_request s') as Hnew.
  { intros s' u' Hs Hu E.
    destruct (slot_handles s s' ev r Hr (deliver_slot ev s s' ltac:(by rewrite Hr) E))
      as [(_ & _ & Hs1) | [(_ & _ & Hs1) | (Hr1 & _ & Hlen')]].
    - rewrite Hs1 in Hs. apply (f_equal length) in Hs.
      rewrite length_app in Hs. simpl in Hs. lia.
    - rewrite Hs1 in Hs. apply (f_equal length) in Hs.
      rewrite length_app in Hs. simpl in Hs. lia.
    - eexists (length (sent s)), _. split_and!; [done| |done|].
      + rewrite Hs. by rewrite lookup_app_r, Nat.sub_diag.
      + by simpl. }
  destruct ev as [data | bytesRead totalBytes | netError red | ].
  - destruct (readyRead_live P _ _ _ _ data HL)
      as (s' & E & _ & _ & _ & _ & Hs & _ & Hu).
    exists s'. split; [done|]. by apply Hsame.
  - destruct (progress_live P _ _ _ _ bytesRead totalBytes HL)
      as (s' & E & _ & _ & _ & _ & Hs & _ & Hu).
    exists s'. split; [done|]. by apply Hsame.
  - destruct (decide (netError = 0)) as [->|Hne].
    + destruct red as [target|].
      * destruct (finished_redirect P _ _ _ _ target HL)
          as (s' & E & _ & _ & _ & Hf & _ & _ & Hu & Hs & _).
        exists s'. split; [done|]. intros _.
        apply (Hnew s' (resolved P (m_currentUrl s) target)); [|done|done].
        rewrite Hs. unfold request_at, fs_size. simpl.
        by rewrite Hf, lookup_insert_eq.
      * destruct (finished_success_done P _ _ _ _ HL) as (s' & E & HD & _).
        exists s'. split; [done|]. rewrite (done_reply _ _ _ HD). by intros [? ?].
    + destruct (decide (netError ≤ UnknownNetworkError
                        ∧ m_retryCounter s < MAX_AUTOMATIC_RETRIES)) as [[? ?]|Hno].
      * destruct (finished_retry P _ _ _ _ netError red HL)
          as (s' & E & _ & Hd & _ & _ & Hs & _ & Hu & _); [done..|].
        exists s'. split; [done|]. intros _.
        apply (Hnew s' (m_currentUrl s)); [|done|done].
        rewrite Hs. unfold request_at. simpl. by rewrite Hd.
      * destruct (finished_fail P _ _ _ _ netError red HL)
          as (s' & E & HD & _); [done|lia|].
        exists s'. split; [done|]. rewrite (done_reply _ _ _ HD). by intros [? ?].
  - destruct (destroy_live P _ _ _ _ HL)
      as (s' & r' & E & _ & _ & _ & _ & _ & _ & _ & _ & _ & Hnone & _).
    exists s'. split; [done|]. rewrite Hnone. by intros [? ?].
Qed.

(** X7.  Whenever a request is in flight it is the last request the session
    issued and it is for the current URL: a retry never leaves a second reply
    connected, and a redirection never leaves one for the old URL. *)
Theorem one_request_in_flight u path finish progress useResume fs0 evs s :
  session P u path finish progress useResume fs0 evs = Some s →
  is_Some (m_reply s) →
  current_request s ∧ objectName s = u.
Proof.
  assert (∀ evs s s', Inv P u path finish fs0 s →
          (is_Some (m_reply s) → current_request s) →
          run P evs s = Some s' → is_Some (m_reply s') → current_request s') as Hrun.
  { clear evs s. induction evs as [|ev evs IH]; intros s s' HI Hcur; simpl.
    - intros [= <-]. done.
    - destruct (deliver_inv P _ _ _ _ ev _ HI) as (s1 & E1 & HI1). rewrite E1.
      apply IH; [done|].
      destruct (m_reply s) as [r|] eqn:Hr.
      + pose proof (Inv_live P _ _ _ _ _ HI ltac:(by rewrite Hr)) as HL.
        destruct (deliver_current _ _ _ ev _ HL (Hcur ltac:(by eexists)))
          as (s1' & E1' & H1).
        rewrite E1 in E1'. by injection E1' as <-.
      + rewrite (deliver_no_reply P ev s Hr) in E1. injection E1 as <-.
        rewrite Hr. by intros [? ?]. }
  intros E Hr. split.
  - unfold session in E.
    destruct (StartDownload_inv P u path finish progress useResume fs0) as (s0 & E0 & HI0).
    rewrite E0 in E. apply (Hrun evs s0 s HI0); [|done|done].
    intros Hr0.
    destruct (decide (tmpFileName P path ∈ locked fs0)) as [Hl|Hl].
    + destruct (StartDownload_refused P u path finish progress useResume fs0 Hl)
        as (s0' & E0' & _ & _ & Hnone & _).
      rewrite E0 in E0'. injection E0' as <-. rewrite Hnone in Hr0. by destruct Hr0.
    + destruct (StartDownload_opened P u path finish progress useResume fs0 Hl)
        as (s0' & E0' & _ & _ & _ & Hu & Hs & _).
      rewrite E0 in E0'. injection E0' as <-.
      pose proof (StartDownload_handles _ _ _ _ _ _ _ E0) as HH.
      unfold handles_in_order in HH. destruct Hr0 as [r Hr0]. rewrite Hr0 in HH.
      destruct HH as [Hlen _]. rewrite Hs in Hlen. simpl in Hlen.
      injection Hlen as <-. exists 0%nat, (request_at P path s0).
      split_and!; [done|by rewrite Hs|by rewrite Hs|done].
  - apply (Inv_live P _ _ _ _ _ (session_reaches P _ _ _ _ _ _ _ _ E) Hr).
Qed.

(** ** The name of the temporary file, again *)

(** X1.  The name the constructor gives the temporary file and the name
    [OnHttpFinished] publishes it under are inverse to each other: stripping
    the last occurrence of the extension from the temporary name gives back
    the destination, also when the destination's own name contains the
    extension, and the two names differ.  The extension must not be empty. *)
Theorem temp_name_round_trip path :
  DOWNLOADING_FILE_EXTENSION P ≠ "" →
  left (lastIndexOf (DOWNLOADING_FILE_EXTENSION P) (tmpFileName P path))
       (tmpFileName P path) = path
  ∧ tmpFileName P path ≠ path
  ∧ lastIndexOf (DOWNLOADING_FILE_EXTENSION P) (tmpFileName P path)
    = Z.of_nat (String.length path).
Proof.
  intros Hext. unfold tmpFileName. split_and!.
  - by apply originalFileName_tmp.
  - by apply tmp_ne_path.
  - by apply lastIndexOf_app.
Qed.

(** ** What reaches the destination *)

Lemma progress_streaming path c s s' bytesRead totalBytes :
  Streaming P path c s →
  deliver P (DownloadProgress bytesRead totalBytes) s = Some s' →
  Streaming P path c s'.
Proof.
  destruct s as [on cu mr mf ab fi pr rc dk sn rl cl sd]. unfold Streaming. simpl.
  intros H. destruct mr as [r|]; norm; [|by intros [= <-]].
  destruct ab, pr; norm; by intros [= <-].
Qed.

Lemma run_streaming u path fs0 evs s c :
  Live P u path fs0 s → Streaming P path c s →
  forallb keeps_going evs = true →
  ∃ s', run P evs s = Some s'
        ∧ Live P u path fs0 s' ∧ Streaming P path (streamed c evs) s'
        ∧ m_currentUrl s' = redirected P (m_currentUrl s) evs.
Proof.
  revert s c. induction evs as [|ev evs IH]; intros s c HL HS Hall; simpl in *.
  - by exists s.
  - apply andb_prop in Hall as [Hev Hall].
    destruct ev as [data | bytesRead totalBytes | netError [target|] | ];
      simpl in Hev; try done.
    + destruct (readyRead_appends P _ _ _ _ _ data HL HS) as (s1 & E1 & HL1 & HS1 & _).
      destruct (readyRead_live P _ _ _ _ data HL) as (s1' & E1' & _ & _ & _ & _ & _ & _ & Hu).
      rewrite E1 in E1'. injection E1' as <-. rewrite E1.
      destruct (IH s1 _ HL1 HS1 Hall) as (s' & E & HL' & HS' & Hu').
      exists s'. split_and!; [done|done|done|]. by rewrite Hu', Hu.
    + destruct (progress_live P _ _ _ _ bytesRead totalBytes HL)
        as (s1 & E1 & HL1 & _ & _ & _ & _ & _ & Hu).
      pose proof (progress_streaming _ _ _ _ _ _ HS E1) as HS1. rewrite E1.
      destruct (IH s1 _ HL1 HS1 Hall) as (s' & E & HL' & HS' & Hu').
      exists s'. split_and!; [done|done|done|]. by rewrite Hu', Hu.
    + apply Z.eqb_eq in Hev. subst netError. simpl.
      destruct (finished_redirect P _ _ _ _ target HL)
        as (s1 & E1 & HL1 & _ & _ & Hf & Hm & _ & Hu & _).
      rewrite E1.
      assert (Streaming P path [] s1) as HS1.
      { exists WriteOnly, 0. split_and!; [done|done|done|].
        by rewrite Hf, lookup_insert_eq. }
      destruct (IH s1 _ HL1 HS1 Hall) as (s' & E & HL' & HS' & Hu').
      exists s'. split_and!; [done|done|done|]. by rewrite Hu', Hu.
Qed.

(** X8.  A session that receives body data, progress reports and
    redirections and then finishes cleanly, with a destination that is not
    locked, publishes at the destination exactly the bytes received since the
    last redirection, in the order they arrived, after the bytes the
    temporary file began with if the session resumes and was not redirected;
    the temporary file is gone and the one result is [EHttpDownloadOk]. *)
Theorem published_content u path finish progress useResume fs0 evs :
  DOWNLOADING_FILE_EXTENSION P ≠ "" →
  tmpFileName P path ∉ locked fs0 → path ∉ locked fs0 →
  forallb keeps_going evs = true →
  ∃ s, session P u path finish progress useResume fs0
         (evs ++ [Finished NoError None]) = Some s
       ∧ files (disk s) !! path
         = Some (streamed (if useResume
                           then default [] (files fs0 !! tmpFileName P path)
                           else []) evs)
       ∧ files (disk s) !! tmpFileName P path = None
       ∧ finishes (calls s) = (if finish then [(u, EHttpDownloadOk)] else []).
Proof.
  intros Hext Hl Hp Hall. unfold session.
  destruct (StartDownload_streaming P u path finish progress useResume fs0 Hl)
    as (s0 & E0 & HL0 & HS0 & _).
  destruct (StartDownload_inv P u path finish progress useResume fs0)
    as (s0' & E0' & HI0).
  rewrite E0 in E0'. injection E0' as <-. rewrite E0, run_app.
  destruct (run_streaming _ _ _ evs _ _ HL0 HS0 Hall) as (s1 & E1 & HL1 & HS1 & _).
  destruct (run_inv P u path finish fs0 evs s0 HI0) as (s1' & E1' & [Hlk1 Hf1 _]).
  rewrite E1 in E1'. injection E1' as <-. rewrite E1.
  destruct (finished_success P _ _ _ _ Hext HL1)
    as (s' & c & E & Hc & _ & _ & _ & _ & _ & Hgone & _ & Hok & _).
  simpl. rewrite E. exists s'.
  destruct HS1 as (mode & p & _ & _ & _ & Hc').
  destruct Hok as [Hcl Hdst]; [by rewrite Hlk1|].
  split_and!; [done|congruence|done|].
  rewrite Hcl, finishes_app, (live_silent _ _ _ _ _ HL1), Hf1. by destruct finish.
Qed.

(** X13.  After any run of body data, progress reports and redirections the
    current URL is the one the redirection targets resolve to, one after the
    other, from the URL the session was created with, while the name
    reported to the callbacks stays that first URL. *)
Theorem redirects_followed u path finish progress useResume fs0 evs :
  tmpFileName P path ∉ locked fs0 →
  forallb keeps_going evs = true →
  ∃ s, session P u path finish progress useResume fs0 evs = Some s
       ∧ m_currentUrl s = redirected P u evs
       ∧ objectName s = u.
Proof.
  intros Hl Hall. unfold session.
  destruct (StartDownload_streaming P u path finish progress useResume fs0 Hl)
    as (s0 & E0 & HL0 & HS0 & _).
  destruct (StartDownload_opened P u path finish progress useResume fs0 Hl)
    as (s0' & E0' & _ & _ & _ & Hu & _).
  rewrite E0 in E0'. injection E0' as <-. rewrite E0.
  destruct (run_streaming _ _ _ evs _ _ HL0 HS0 Hall) as (s & E & HL & _ & Hu').
  exists s. split_and!; [done|by rewrite Hu', Hu|apply HL].
Qed.

(** ** The disk after a session *)

Lemma Live_outcome u path fs0 s :
  DOWNLOADING_FILE_EXTENSION P ≠ "" →
  Live P u path fs0 s → Footprint P path fs0 s ∧ Outcome P u path fs0 s.
Proof.
  intros Hext HL. pose proof (tmp_ne_path _ path Hext) as Htmp.
  pose proof (live_others _ _ _ _ _ HL) as Hoth.
  pose proof (live_silent _ _ _ _ _ HL) as Hsil.
  split; [|split].
  - intros p Hp _. by apply Hoth.
  - by rewrite Hsil.
  - intros _ _. apply Hoth. unfold tmpFileName. done.
Qed.

Lemma deliver_outcome u path finish fs0 ev s :
  DOWNLOADING_FILE_EXTENSION P ≠ "" →
  Inv P u path finish fs0 s →
  Footprint P path fs0 s → (finish = true → Outcome P u path fs0 s) →
  ∃ s', deliver P ev s = Some s' ∧ Inv P u path finish fs0 s'
        ∧ Footprint P path fs0 s' ∧ (finish = true → Outcome P u path fs0 s').
Proof.
  intros Hext HI HF HO. pose proof (tmp_ne_path _ path Hext) as Htmp.
  destruct (deliver_inv P _ _ _ _ ev _ HI) as (s' & E & HI').
  exists s'. split; [done|]. split; [done|].
  destruct HI as [Hlk Hfin [HL | [HD | HA]]].
  - destruct HI' as [_ _ [HL' | [HD' | HA']]].
    + destruct (Live_outcome _ _ _ _ Hext HL'). by split.
    + (* the session has just ended *)
      pose proof (live_others _ _ _ _ _ HL) as Hoth.
      pose proof (live_silent _ _ _ _ _ HL) as Hsil.
      destruct ev as [data | bytesRead totalBytes | netError red | ].
      * destruct (readyRead_live P _ _ _ _ data HL) as (s1 & E1 & HL1 & _).
        rewrite E1 in E. injection E as <-.
        destruct HL1 as [[r Hr] _ _ _ _ _ _ _ _ _].
        rewrite (done_reply _ _ _ HD') in Hr. done.
      * destruct (progress_live P _ _ _ _ bytesRead totalBytes HL)
          as (s1 & E1 & HL1 & _).
        rewrite E1 in E. injection E as <-.
        destruct HL1 as [[r Hr] _ _ _ _ _ _ _ _ _].
        rewrite (done_reply _ _ _ HD') in Hr. done.
      * destruct (decide (netError = 0)) as [->|Hne].
        -- destruct red as [target|].
           ++ destruct (finished_redirect P _ _ _ _ target HL) as (s1 & E1 & HL1 & _).
              unfold NoError in E1. rewrite E1 in E. injection E as <-.
              destruct HL1 as [[r Hr] _ _ _ _ _ _ _ _ _].
              rewrite (done_reply _ _ _ HD') in Hr. done.
           ++ destruct (finished_success P _ _ _ _ Hext HL)
                as (s1 & c & E1 & Hc & _ & _ & _ & _ & _ & Hgone & Hsame & Hok & Hko).
              unfold NoError in E1. rewrite E1 in E. injection E as <-.
              split.
              ** intros p Hp1 Hp2. rewrite Hsame by done. by apply Hoth.
              ** intros ->. unfold Outcome.
                 destruct (decide (path ∈ locked (disk s))) as [Hin|Hout].
                 --- destruct (Hko Hin) as [Hcl _].
                     rewrite Hcl, Hfin, finishes_app, Hsil. simpl.
                     split; [done|]. by intros _ Hne.
                 --- destruct (Hok Hout) as [Hcl Hdst].
                     rewrite Hcl, Hfin, finishes_app, Hsil, Hdst. simpl.
                     split; [by eauto|done].
        -- destruct (decide (netError ≤ UnknownNetworkError
                             ∧ m_retryCounter s < MAX_AUTOMATIC_RETRIES)) as [[? ?]|Hno].
           ++ destruct (finished_retry P _ _ _ _ netError red HL)
                as (s1 & E1 & HL1 & _); [done..|].
              rewrite E1 in E. injection E as <-.
              destruct HL1 as [[r Hr] _ _ _ _ _ _ _ _ _].
              rewrite (done_reply _ _ _ HD') in Hr. done.
           ++ destruct (finished_fail P _ _ _ _ netError red HL)
                as (s1 & E1 & _ & _ & _ & Hf & Hcl & _); [done|lia|].
              rewrite E1 in E. injection E as <-.
              split.
              ** intros p Hp1 Hp2. rewrite Hf, lookup_delete_ne by done. by apply Hoth.
              ** intros ->. unfold Outcome.
                 rewrite Hcl, Hfin, finishes_app, Hsil. simpl.
                 split; [by destruct (netError =? ContentNotFoundError)|].
                 intros _ _. rewrite Hf, lookup_delete_ne by done. apply Hoth.
                 unfold tmpFileName. done.
      * destruct (destroy_live P _ _ _ _ HL)
          as (s1 & r & E1 & _ & _ & _ & _ & _ & _ & _ & _ & _ & _ & _ & Hab & _).
        rewrite E1 in E. injection E as <-.
        rewrite (done_not_aborted _ _ _ HD') in Hab. done.
    + pose proof (aborted_others _ _ _ _ HA') as Hoth.
      pose proof (aborted_silent _ _ _ _ HA') as Hsil.
      split; [|intros _; split].
      * intros p Hp _. by apply Hoth.
      * by rewrite Hsil.
      * intros _ _. apply Hoth. unfold tmpFileName. done.
  - rewrite (deliver_no_reply P ev s (done_reply _ _ _ HD)) in E.
    injection E as <-. by split.
  - rewrite (deliver_no_reply P ev s (aborted_reply _ _ _ _ HA)) in E.
    injection E as <-. by split.
Qed.

Lemma session_outcome u path finish progress useResume fs0 evs :
  DOWNLOADING_FILE_EXTENSION P ≠ "" →
  ∃ s, session P u path finish progress useResume fs0 evs = Some s
       ∧ Inv P u path finish fs0 s
       ∧ Footprint P path fs0 s ∧ (finish = true → Outcome P u path fs0 s).
Proof.
  intros Hext.
  assert (∀ evs s, Inv P u path finish fs0 s →
          Footprint P path fs0 s → (finish = true → Outcome P u path fs0 s) →
          ∃ s', run P evs s = Some s' ∧ Inv P u path finish fs0 s'
                ∧ Footprint P path fs0 s'
                ∧ (finish = true → Outcome P u path fs0 s')) as Hrun.
  { clear evs. induction evs as [|ev evs IH]; intros s HI HF HO; simpl.
    - by exists s.
    - destruct (deliver_outcome _ _ _ _ ev _ Hext HI HF HO) as (s1 & -> & HI1 & HF1 & HO1).
      by apply IH. }
  unfold session.
  destruct (StartDownload_inv P u path finish progress useResume fs0) as (s0 & E0 & HI0).
  rewrite E0. apply Hrun; [done|..].
  - destruct (decide (tmpFileName P path ∈ locked fs0)) as [Hl|Hl].
    + destruct (StartDownload_refused P u path finish progress useResume fs0 Hl)
        as (s0' & E0' & _ & _ & _ & _ & _ & _ & _ & Hd).
      rewrite E0 in E0'. injection E0' as <-. intros p _ _. by rewrite Hd.
    + destruct (StartDownload_opened P u path finish progress useResume fs0 Hl)
        as (s0' & E0' & HL & _).
      rewrite E0 in E0'. injection E0' as <-. by apply (Live_outcome u).
  - intros ->.
    destruct (decide (tmpFileName P path ∈ locked fs0)) as [Hl|Hl].
    + destruct (StartDownload_refused P u path true progress useResume fs0 Hl)
        as (s0' & E0' & Hcl & _ & _ & _ & _ & _ & _ & Hd).
      rewrite E0 in E0'. injection E0' as <-. unfold Outcome. rewrite Hcl, Hd.
      split; [done|by intros _ _].
    + destruct (StartDownload_opened P u path true progress useResume fs0 Hl)
        as (s0' & E0' & HL & _).
      rewrite E0 in E0'. injection E0' as <-. by apply Live_outcome.
Qed.

(** X11.  Whatever events a session receives, it never changes the set of
    locked names and never creates, changes or removes a file other than its
    temporary file and its destination. *)
Theorem session_footprint u path finish progress useResume fs0 evs :
  DOWNLOADING_FILE_EXTENSION P ≠ "" →
  ∃ s, session P u path finish progress useResume fs0 evs = Some s
       ∧ locked (disk s) = locked fs0
       ∧ ∀ p, p ≠ tmpFileName P path → p ≠ path →
              files (disk s) !! p = files fs0 !! p.
Proof.
  intros Hext.
  destruct (session_outcome u path finish progress useResume fs0 evs Hext)
    as (s & E & [Hlk _ _] & HF & _).
  by exists s.
Qed.

(** X12.  The destination is written by the success branch alone.  Whatever
    events a session with a finish callback receives: if [EHttpDownloadOk]
    has been reported the destination holds a file and the temporary file is
    gone; and unless [EHttpDownloadOk] or [EHttpDownloadFileIsLocked] has
    been reported (no result yet, a failure, a temporary file that could not
    be opened, an abort) the destination is exactly as it was before the
    session.  Nothing is said of the destination after
    [EHttpDownloadFileIsLocked]: that branch has tried to remove it. *)
Theorem outcome_on_disk u path progress useResume fs0 evs :
  DOWNLOADING_FILE_EXTENSION P ≠ "" →
  ∃ s, session P u path true progress useResume fs0 evs = Some s
       ∧ (finishes (calls s) = [(u, EHttpDownloadOk)] →
            is_Some (files (disk s) !! path)
            ∧ files (disk s) !! tmpFileName P path = None)
       ∧ (finishes (calls s) ≠ [(u, EHttpDownloadOk)] →
          finishes (calls s) ≠ [(u, EHttpDownloadFileIsLocked)] →
            files (disk s) !! path = files fs0 !! path).
Proof.
  intros Hext.
  destruct (session_outcome u path true progress useResume fs0 evs Hext)
    as (s & E & _ & _ & HO).
  exists s. split; [done|]. by apply HO.
Qed.

End More.

(** * The identity of the client *)

Section Identity.

Context (toULongLong : string → option N).

Lemma bit_wanted i :
  Z.testbit 39 i = true
  ↔ 2 ^ i ∈ [Probe.IsUp; Probe.IsRunning; Probe.CanBroadcast; Probe.CanMulticast].
Proof.
  unfold Probe.IsUp, Probe.IsRunning, Probe.CanBroadcast, Probe.CanMulticast.
  rewrite !elem_of_cons, elem_of_nil.
  destruct (Z.lt_ge_cases i 0) as [Hneg|Hpos].
  { rewrite Z.testbit_neg_r, Z.pow_neg_r by done. split; [done|lia]. }
  destruct (Z.lt_ge_cases i 6) as [Hlt|Hge].
  - assert (i = 0 ∨ i = 1 ∨ i = 2 ∨ i = 3 ∨ i = 4 ∨ i = 5) as Hi by lia.
    destruct Hi as [-> | [-> | [-> | [-> | [-> | ->]]]]]; vm_compute; split; intros H;
      try done; try tauto; repeat (destruct H as [H|H]; try done).
  - rewrite Z.bits_above_log2 by (try done; change (Z.log2 39) with 5; lia).
    assert (2 ^ 6 ≤ 2 ^ i) by (apply Z.pow_le_mono_r; lia).
    change (2 ^ 6) with 64 in *. split; [done|lia].
Qed.

Lemma mask_test f :
  (Z.land f (Z.lor (Z.lor (Z.lor Probe.IsUp Probe.IsRunning) Probe.CanBroadcast)
               Probe.CanMulticast) =? f) = true
  ↔ ∀ i, Z.testbit f i = true →
         2 ^ i ∈ [Probe.IsUp; Probe.IsRunning; Probe.CanBroadcast; Probe.CanMulticast].
Proof.
  change (Z.lor _ Probe.CanMulticast) with 39. rewrite Z.eqb_eq. split.
  - intros H i Hi. apply bit_wanted. rewrite <- H, Z.land_spec in Hi.
    by apply andb_prop in Hi as [_ Hi].
  - intros H. apply Z.bits_inj'. intros n _. rewrite Z.land_spec.
    destruct (Z.testbit f n) eqn:E; [|done].
    simpl. by apply bit_wanted, H.
Qed.

Lemma usable_test iface :
  negb (bool_decide (Probe.addressEntries iface = []))
  && (Z.land (Probe.flags iface)
        (Z.lor (Z.lor (Z.lor Probe.IsUp Probe.IsRunning) Probe.CanBroadcast)
           Probe.CanMulticast) =? Probe.flags iface)
  && Nat.eqb (String.length (Probe.hardwareAddress iface)) 17 = true
  ↔ usable iface.
Proof.
  unfold usable. rewrite !andb_true_iff, negb_true_iff, bool_decide_eq_false,
    mask_test, Nat.eqb_eq. tauto.
Qed.

Lemma MacAddress_chosen iface rest n :
  chosen toULongLong iface n →
  Probe.MacAddress toULongLong (iface :: rest) = pretty n.
Proof.
  intros [Hu Hn]. apply usable_test in Hu. simpl. by rewrite Hu, Hn.
Qed.

Lemma MacAddress_skip iface rest :
  (∀ n, ¬ chosen toULongLong iface n) →
  Probe.MacAddress toULongLong (iface :: rest) = Probe.MacAddress toULongLong rest.
Proof.
  intros Hno. simpl.
  destruct (_ && _) eqn:Hu; [|done].
  destruct (toULongLong _) as [n|] eqn:Hn; [|done].
  destruct (Hno n). split; [by apply usable_test|done].
Qed.

Lemma chosen_dec iface :
  (∃ n, chosen toULongLong iface n) ∨ (∀ n, ¬ chosen toULongLong iface n).
Proof.
  destruct (negb (bool_decide (Probe.addressEntries iface = []))
            && (Z.land (Probe.flags iface)
                  (Z.lor (Z.lor (Z.lor Probe.IsUp Probe.IsRunning) Probe.CanBroadcast)
                     Probe.CanMulticast) =? Probe.flags iface)
            && Nat.eqb (String.length (Probe.hardwareAddress iface)) 17) eqn:Hu.
  - apply usable_test in Hu.
    destruct (toULongLong (Probe.remove ":"%char (Probe.hardwareAddress iface)))
      as [n|] eqn:Hn.
    + left. by exists n.
    + right. intros n [_ Hn']. congruence.
  - right. intros n [Hu' _]. apply usable_test in Hu'. congruence.
Qed.

(** ** Decimal numerals *)

Lemma pretty_N_char_digit x :
  (48 <=? Ascii.N_of_ascii (pretty_N_char x))%N && (Ascii.N_of_ascii (pretty_N_char x) <=? 57)%N
  = true.
Proof. unfold pretty_N_char. by repeat case_match. Qed.

Lemma pretty_N_go_digits x s :
  digits s = true → digits (pretty_N_go x s) = true.
Proof.
  revert s. induction (N.lt_wf_0 x) as [x _ IH]; intros s Hs.
  assert (x = 0 ∨ 0 < x)%N as [->|Hx] by lia.
  - by rewrite pretty_N_go_0.
  - rewrite pretty_N_go_step by done. apply IH; [by apply N.div_lt|].
    simpl. by rewrite pretty_N_char_digit.
Qed.

Lemma pretty_N_go_nonempty x s :
  (0 < x)%N → pretty_N_go x s ≠ "".
Proof.
  assert (∀ x s, s ≠ "" → pretty_N_go x s ≠ "") as Hgo.
  { clear x s. intros x. induction (N.lt_wf_0 x) as [x _ IH]; intros s Hs.
    assert (x = 0 ∨ 0 < x)%N as [->|Hx] by lia.
    - by rewrite pretty_N_go_0.
    - rewrite pretty_N_go_step by done. apply IH; [by apply N.div_lt|done]. }
  intros Hx. rewrite pretty_N_go_step by done. by apply Hgo.
Qed.

Lemma pretty_N_digits (n : N) : digits (pretty n) = true ∧ pretty n ≠ "".
Proof.
  unfold pretty, pretty_N. destruct (decide (n = 0)%N) as [->|Hn]; [done|].
  split; [by apply pretty_N_go_digits|apply pretty_N_go_nonempty; lia].
Qed.

(** ** [MacAddress] *)

(** X14.  [MacAddress] returns the decimal numeral of the first interface, in
    list order, that has an address entry, carries no flag other than
    [IsUp], [IsRunning], [CanBroadcast] and [CanMulticast], has a hardware
    address of 17 characters and whose address converts; that numeral is
    never empty.  It returns the empty string exactly when no interface is
    of that kind. *)
Theorem MacAddress_first_usable interfaces :
  (Probe.MacAddress toULongLong interfaces = ""
   ∧ ∀ iface n, iface ∈ interfaces → ¬ chosen toULongLong iface n)
  ∨ (∃ pre iface post n,
       interfaces = pre ++ iface :: post
       ∧ (∀ other m, other ∈ pre → ¬ chosen toULongLong other m)
       ∧ chosen toULongLong iface n
       ∧ Probe.MacAddress toULongLong interfaces = pretty n
       ∧ Probe.MacAddress toULongLong interfaces ≠ "").
Proof.
  induction interfaces as [|iface rest IH].
  - left. split; [done|]. intros iface n Hin. by apply elem_of_nil in Hin.
  - destruct (chosen_dec iface) as [[n Hn]|Hno].
    + right. exists [], iface, rest, n.
      rewrite (MacAddress_chosen _ _ _ Hn).
      split_and!; [done| |done|done|apply pretty_N_digits].
      intros other m Hin. by apply elem_of_nil in Hin.
    + rewrite (MacAddress_skip _ _ Hno).
      destruct IH as [[He Hall]|(pre & i & post & n & -> & Hpre & Hn & He & Hne)].
      * left. split; [done|]. intros i n [->|Hin]%elem_of_cons; [apply Hno|by apply Hall].
      * right. exists (iface :: pre), i, post, n.
        split_and!; [done| |done|done|done].
        intros other m [->|Hin]%elem_of_cons; [apply Hno|by apply Hpre].
Qed.

(** X15.  An interface that is a loopback or a point-to-point interface, has
    no address entry, or has a hardware address that is not 17 characters
    long is ignored wherever it stands in the list. *)
Theorem MacAddress_ignores pre iface post :
  Z.land (Probe.flags iface) Probe.IsLoopBack ≠ 0
  ∨ Z.land (Probe.flags iface) Probe.IsPointToPoint ≠ 0
  ∨ Probe.addressEntries iface = []
  ∨ String.length (Probe.hardwareAddress iface) ≠ 17%nat →
  Probe.MacAddress toULongLong (pre ++ iface :: post)
  = Probe.MacAddress toULongLong (pre ++ post).
Proof.
  intros Hbad.
  assert (∀ n, ¬ chosen toULongLong iface n) as Hno.
  { intros n [(Hent & Hfl & Hlen) _].
    assert (∀ k, Z.land (Probe.flags iface) (2 ^ k) ≠ 0 → 0 ≤ k →
                 Z.testbit (Probe.flags iface) k = true) as Hbit.
    { intros k Hk Hk0. destruct (Z.testbit (Probe.flags iface) k) eqn:E; [done|].
      destruct Hk. apply Z.bits_inj'. intros i Hi.
      rewrite Z.land_spec, Z.bits_0, Z.pow2_bits_eqb by done.
      destruct (Z.eqb_spec k i) as [->|]; [by rewrite E|apply andb_false_r]. }
    destruct Hbad as [H|[H|[H|H]]]; [| |done..].
    - apply (Hbit 3) in H; [|done]. apply Hfl, bit_wanted in H. done.
    - apply (Hbit 4) in H; [|done]. apply Hfl, bit_wanted in H. done. }
  induction pre as [|a pre IH]; simpl app.
  - by apply MacAddress_skip.
  - destruct (chosen_dec a) as [[n Hn]|Hna].
    + by rewrite !(MacAddress_chosen _ _ _ Hn).
    + by rewrite !(MacAddress_skip _ _ Hna).
Qed.

(** X16.  Whether an interface is up or running makes no difference: two
    lists of interfaces that differ only in the [IsUp] and [IsRunning] flags
    give the same address, although the function is documented to return the
    address of an active interface. *)
Theorem MacAddress_ignores_state interfaces interfaces' :
  Forall2 same_but_state interfaces interfaces' →
  Probe.MacAddress toULongLong interfaces = Probe.MacAddress toULongLong interfaces'.
Proof.
  assert (∀ a b n, same_but_state a b → chosen toULongLong a n →
                   chosen toULongLong b n) as Hsame.
  { intros a b n (Hhw & Hent & Hfl) [(Ha & Hb & Hc) Hn].
    split; [|by rewrite <- Hhw]. split_and!; [by rewrite <- Hent| |by rewrite <- Hhw].
    intros i Hi.
    assert (Z.testbit (Z.lor (Probe.flags a) (Z.lor Probe.IsUp Probe.IsRunning)) i
            = true) as Hor.
    { rewrite Hfl, Z.lor_spec, Hi. done. }
    rewrite Z.lor_spec in Hor. apply orb_prop in Hor as [Hor|Hor]; [by apply Hb|].
    apply bit_wanted.
    change (Z.lor Probe.IsUp Probe.IsRunning) with (Z.land 3 39) in Hor.
    rewrite Z.land_spec in Hor. by apply andb_prop in Hor as [_ Hor]. }
  assert (∀ a b, same_but_state a b → same_but_state b a) as Hsym.
  { intros a b (? & ? & ?). by split_and!. }
  induction 1 as [|a b l l' Hab _ IH]; [done|].
  destruct (chosen_dec a) as [[n Hn]|Hna].
  - by rewrite (MacAddress_chosen _ _ _ Hn), (MacAddress_chosen _ _ _ (Hsame _ _ _ Hab Hn)).
  - rewrite (MacAddress_skip _ _ Hna), IH. symmetry. apply MacAddress_skip.
    intros n Hn. apply (Hna n). apply (Hsame b a); [by apply Hsym|done].
Qed.

(** ** [FsCreationTime] *)

Lemma root_test path :
  String.eqb path "/" || Probe.startsWith path "C:" = true ↔ is_root path.
Proof.
  unfold is_root, Probe.startsWith. rewrite orb_true_iff, String.eqb_eq.
  apply or_iff_compat_l. rewrite String.prefix_correct. split.
  - destruct path as [|a [|b rest]]; simpl; try done.
    destruct rest; simpl; intros [= -> ->]; by eexists.
  - intros [rest ->]. change ("C:" +:+ rest) with (String "C" (String ":" rest)).
    simpl. by destruct rest.
Qed.

(** X17.  [FsCreationTime] returns the decimal creation time of the first
    drive, in list order, whose absolute path is "/" or begins with "C:",
    never an empty string then; it returns the empty string exactly when
    there is no such drive. *)
Theorem FsCreationTime_first_root drives :
  (Probe.FsCreationTime drives = ""
   ∧ ∀ info, info ∈ drives → ¬ is_root (Probe.absolutePath info))
  ∨ (∃ pre info post,
       drives = pre ++ info :: post
       ∧ (∀ other, other ∈ pre → ¬ is_root (Probe.absolutePath other))
       ∧ is_root (Probe.absolutePath info)
       ∧ Probe.FsCreationTime drives = pretty (Probe.created info)
       ∧ Probe.FsCreationTime drives ≠ "").
Proof.
  induction drives as [|info rest IH].
  - left. split; [done|]. intros info Hin. by apply elem_of_nil in Hin.
  - simpl. destruct (_ || _) eqn:Hr.
    + apply root_test in Hr. right. exists [], info, rest.
      split_and!; [done| |done|done|apply pretty_N_digits].
      intros other Hin. by apply elem_of_nil in Hin.
    + assert (¬ is_root (Probe.absolutePath info)) as Hno.
      { intros H%root_test. congruence. }
      destruct IH as [[He Hall]|(pre & i & post & -> & Hpre & Hi & He & Hne)].
      * left. split; [done|]. intros i [->|Hin]%elem_of_cons; [done|by apply Hall].
      * right. exists (info :: pre), i, post.
        split_and!; [done| |done|done|done].
        intros other [->|Hin]%elem_of_cons; [done|by apply Hpre].
Qed.

(** ** [UniqueClientId] *)

Lemma MacAddress_digits interfaces :
  digits (Probe.MacAddress toULongLong interfaces) = true.
Proof.
  induction interfaces as [|iface rest IH]; [done|]. simpl.
  destruct (_ && _); [|done].
  destruct (toULongLong _); [apply pretty_N_digits|done].
Qed.

Lemma FsCreationTime_digits drives :
  digits (Probe.FsCreationTime drives) = true.
Proof.
  induction drives as [|info rest IH]; [done|]. simpl.
  destruct (_ || _); [apply pretty_N_digits|done].
Qed.

(** X18.  The client id is never empty, whatever the machine reports: it is
    the MAC address when there is one, else the creation time of the root
    file system when there is one, else twelve dashes. *)
Theorem UniqueClientId_never_empty (P : Platform) :
  UniqueClientId P ≠ ""
  ∧ (MacAddress P ≠ "" → UniqueClientId P = MacAddress P)
  ∧ (MacAddress P = "" → FsCreationTime P ≠ "" →
       UniqueClientId P = FsCreationTime P)
  ∧ (MacAddress P = "" → FsCreationTime P = "" →
       UniqueClientId P = "------------").
Proof.
  unfold UniqueClientId.
  destruct (MacAddress P) as [|a m]; destruct (FsCreationTime P) as [|b t]; simpl;
    split_and!; done.
Qed.

(** X19.  On a machine probed by [MacAddress] and [FsCreationTime] the client
    id is either twelve dashes or a non-empty string of decimal digits: no
    colon and no hexadecimal letter of a hardware address reaches the
    User-Agent header. *)
Theorem UniqueClientId_decimal ext os version resolve interfaces drives :
  UniqueClientId
    (platform_of ext os version resolve toULongLong interfaces drives)
  = "------------"
  ∨ (UniqueClientId
       (platform_of ext os version resolve toULongLong interfaces drives) ≠ ""
     ∧ digits (UniqueClientId
         (platform_of ext os version resolve toULongLong interfaces drives))
       = true).
Proof.
  unfold UniqueClientId. simpl.
  pose proof (MacAddress_digits interfaces) as Hm.
  pose proof (FsCreationTime_digits drives) as Hf.
  destruct (Probe.MacAddress toULongLong interfaces) as [|a m]; simpl.
  - destruct (Probe.FsCreationTime drives) as [|b t]; simpl; [by left|by right].
  - by right.
Qed.

End Identity.

(** * Further sample sessions *)

(** The temporary name of a destination that contains the extension. *)
Lemma temp_name_round_trip_witness :
  DOWNLOADING_FILE_EXTENSION omim ≠ ""
  ∧ left (lastIndexOf ".downloading" "a.downloading.mwm.downloading")
         "a.downloading.mwm.downloading" = "a.downloading.mwm".
Proof.
  split; [discriminate|].
  exact (proj1 (temp_name_round_trip omim "a.downloading.mwm" ltac:(discriminate))).
Defined.

(** A timeout after two bytes were streamed. *)
Lemma retry_same_url_witness :
  ∃ s, session omim "http://h/a" "a.mwm" true true false empty_disk
         [ReadyRead AB] = Some s
       ∧ m_retryCounter s < MAX_AUTOMATIC_RETRIES
       ∧ ∃ s', deliver omim (Finished TimeoutError None) s = Some s'
               ∧ m_currentUrl s' = "http://h/a"
               ∧ disk s' = disk s ∧ calls s' = calls s.
Proof.
  eexists. split; [vm_compute; reflexivity|]. split; [vm_compute; reflexivity|].
  match goal with |- context [deliver _ _ ?st] =>
    destruct (retry_same_url omim "http://h/a" "a.mwm" true true false empty_disk
                [ReadyRead AB] st TimeoutError None
                ltac:(vm_compute; reflexivity) ltac:(by eexists)
                ltac:(vm_compute; discriminate) ltac:(vm_compute; discriminate)
                ltac:(vm_compute; reflexivity))
      as (s' & E & _ & Hu & Hd & Hc & _)
  end.
  exists s'. split_and!; [exact E|exact Hu|exact Hd|exact Hc].
Defined.

(** The server does not have the file. *)
Lemma failure_result_witness :
  ∃ s, session omim "http://h/a" "a.mwm" true true false empty_disk
         [ReadyRead AB] = Some s
       ∧ ∃ s', deliver omim (Finished ContentNotFoundError None) s = Some s'
               ∧ calls s' = calls s ++ [Finish "http://h/a" EHttpDownloadFileNotFound]
               ∧ sent s' = sent s.
Proof.
  eexists. split; [vm_compute; reflexivity|].
  match goal with |- context [deliver _ _ ?st] =>
    destruct (failure_result omim "http://h/a" "a.mwm" true true false empty_disk
                [ReadyRead AB] st ContentNotFoundError None
                ltac:(vm_compute; reflexivity) ltac:(by eexists)
                ltac:(vm_compute; discriminate)
                ltac:(left; vm_compute; reflexivity))
      as (s' & E & Hc & Hs & _)
  end.
  exists s'. split_and!; [exact E|exact Hc|exact Hs].
Defined.

(** A retry followed by a redirection. *)
Lemma one_request_in_flight_witness :
  ∃ s, session omim "http://h/a" "a.mwm" true true false empty_disk
         [Finished TimeoutError None; Finished NoError (Some "http://x/b")] = Some s
       ∧ current_request s ∧ objectName s = "http://h/a".
Proof.
  eexists. split; [vm_compute; reflexivity|].
  match goal with |- context [current_request ?st] =>
    exact (one_request_in_flight omim "http://h/a" "a.mwm" true true false empty_disk
             [Finished TimeoutError None; Finished NoError (Some "http://x/b")] st
             ltac:(vm_compute; reflexivity) ltac:(by eexists))
  end.
Defined.

(** A resumed download of four more bytes. *)
Lemma published_content_witness :
  ∃ s, session omim "http://h/a" "a.mwm" true true true partial_disk
         ([ReadyRead AB; DownloadProgress 2 4; ReadyRead CD]
          ++ [Finished NoError None]) = Some s
       ∧ files (disk s) !! "a.mwm" = Some (list_byte_of_string "0123456789abABCD")
       ∧ finishes (calls s) = [("http://h/a", EHttpDownloadOk)].
Proof.
  destruct (published_content omim "http://h/a" "a.mwm" true true true partial_disk
              [ReadyRead AB; DownloadProgress 2 4; ReadyRead CD]
              ltac:(discriminate) ltac:(apply not_elem_of_empty)
              ltac:(apply not_elem_of_empty) ltac:(reflexivity))
    as (s & E & Hc & _ & Hf).
  exists s. split_and!; [exact E| |exact Hf].
  rewrite Hc. vm_compute. reflexivity.
Defined.

(** Two redirections in a row. *)
Lemma redirects_followed_witness :
  ∃ s, session omim "http://h/a" "a.mwm" true true false empty_disk
         [ReadyRead AB; Finished NoError (Some "http://x/b");
          Finished NoError (Some "http://y/c")] = Some s
       ∧ m_currentUrl s = "http://y/c" ∧ objectName s = "http://h/a".
Proof.
  destruct (redirects_followed omim "http://h/a" "a.mwm" true true false empty_disk
              [ReadyRead AB; Finished NoError (Some "http://x/b");
               Finished NoError (Some "http://y/c")]
              ltac:(apply not_elem_of_empty) ltac:(reflexivity))
    as (s & E & Hu & Hn).
  exists s. split_and!; [exact E|exact Hu|exact Hn].
Defined.

(** A download next to another map. *)
Lemma session_footprint_witness :
  ∃ s, session omim "http://h/a" "a.mwm" true true false
         {| files := {[ "b.mwm" := CD ]}; locked := ∅ |}
         [ReadyRead AB; Finished NoError None] = Some s
       ∧ files (disk s) !! "b.mwm" = Some CD.
Proof.
  destruct (session_footprint omim "http://h/a" "a.mwm" true true false
              {| files := {[ "b.mwm" := CD ]}; locked := ∅ |}
              [ReadyRead AB; Finished NoError None] ltac:(discriminate))
    as (s & E & _ & Hoth).
  exists s. split; [exact E|].
  rewrite Hoth by (vm_compute; discriminate). vm_compute. reflexivity.
Defined.

(** A download that fails for good leaves the old file at the destination. *)
Lemma outcome_on_disk_witness :
  ∃ s, session omim "http://h/a" "a.mwm" true true false
         {| files := {[ "a.mwm" := list_byte_of_string "old" ]}; locked := ∅ |}
         [ReadyRead AB; Finished ContentNotFoundError None] = Some s
       ∧ finishes (calls s) = [("http://h/a", EHttpDownloadFileNotFound)]
       ∧ files (disk s) !! "a.mwm" = Some (list_byte_of_string "old").
Proof.
  destruct (outcome_on_disk omim "http://h/a" "a.mwm" true false
              {| files := {[ "a.mwm" := list_byte_of_string "old" ]}; locked := ∅ |}
              [ReadyRead AB; Finished ContentNotFoundError None] ltac:(discriminate))
    as (s & E & _ & Hko).
  exists s. split; [exact E|].
  assert (finishes (calls s) = [("http://h/a", EHttpDownloadFileNotFound)]) as Hf.
  { vm_compute in E. injection E as <-. vm_compute. reflexivity. }
  split; [exact Hf|].
  rewrite Hko; [vm_compute; reflexivity|rewrite Hf; discriminate..].
Defined.

(** A machine whose first interface is the loopback interface. *)
Lemma MacAddress_ignores_witness :
  Z.land (Probe.flags lo) Probe.IsLoopBack ≠ 0
  ∧ Probe.MacAddress hex ([] ++ lo :: [eth0]) = Probe.MacAddress hex ([] ++ [eth0]).
Proof.
  split; [vm_compute; discriminate|].
  apply (MacAddress_ignores hex [] lo [eth0]). left. vm_compute. discriminate.
Defined.

(** The card of [eth0], up and down. *)
Lemma MacAddress_ignores_state_witness :
  Forall2 same_but_state [eth0] [eth0_down]
  ∧ Probe.MacAddress hex [eth0] = Probe.MacAddress hex [eth0_down].
Proof.
  assert (Forall2 same_but_state [eth0] [eth0_down]) as H.
  { constructor; [|constructor]. split_and!; reflexivity. }
  split; [exact H|]. apply (MacAddress_ignores_state hex [eth0] [eth0_down] H).
Defined.

(** What the sample machine reports. *)
Example sample_client_id :
  UniqueClientId (platform_of ".downloading" "linux" "1.0" (λ _ target, target)
                    hex [lo; eth0] [home_drive; root_drive]) = "112394521950"
  ∧ UniqueClientId (platform_of ".downloading" "linux" "1.0" (λ _ target, target)
                      hex [lo] [home_drive; root_drive]) = "1300000000"
  ∧ UniqueClientId (platform_of ".downloading" "linux" "1.0" (λ _ target, target)
                      hex [lo] [home_drive]) = "------------".
Proof. split_and!; vm_compute; reflexivity. Qed.
